(** * explode_bulkprint: a shallow embedding of the BulkPrint exploder

    The script walks the outline (bookmarks) of an exported PDF, writes one
    CSV row per "Candidate Details" bookmark and one PDF per resume bookmark.
    This file embeds the loop of [explode_bulkprint.py] (lines 57-136) as
    functions over an explicit state with exceptions, and proves properties
    of the classification, the candidate counter, the name parsing and the
    page ranges of the resumes.

    Modelling choices:
    - a Python [str] is a list of Unicode code points ([N]);
    - the PDF reader is a record: the text of every page and the outline,
      where a destination carries its title and what
      [getDestinationPageNumber] does on it: the number of its page, -1
      when its page is not a page of the document, or [AttributeError]
      when it has no page at all; page numbers are Python integers, and
      [getPage] indexes the list of pages as Python does, a negative
      number counting from the end;
    - [resume_files] is the sequence of the files written: a later file of
      the same name replaces the earlier one in the output folder
      ([output_folder]);
    - an uncaught Python exception ends the run: every effectful function
      returns the state reached together with [Ok] or [Raise];
    - [print] calls and the set-up of the output folders are left out. *)

From Stdlib Require Import String Ascii DecimalString.
From Stdlib Require DecimalNat.
From Stdlib Require Import List NArith ZArith Arith Lia Bool Sorted.
Import ListNotations.

Set Warnings "-register-all".

Set Implicit Arguments.

(** ** Strings *)

Definition char := N.
Definition str := list char.

(** A Python string literal. *)
Definition lit (s : String.string) : str :=
  map Ascii.N_of_ascii (String.list_ascii_of_string s).
Arguments lit s%_string.

Definition nl : char := 10%N.

Definition str_eqb (a b : str) : bool :=
  if list_eq_dec N.eq_dec a b then true else false.

(** [str.isspace] on one code point: the characters that [str.strip()] and
    [str.split()] without argument treat as white space. *)
Definition is_space (c : char) : bool :=
  existsb (N.eqb c)
    [9; 10; 11; 12; 13; 28; 29; 30; 31; 32; 133; 160; 5760;
     8192; 8193; 8194; 8195; 8196; 8197; 8198; 8199; 8200; 8201; 8202;
     8232; 8233; 8239; 8287; 12288]%N.

Fixpoint lstrip (s : str) : str :=
  match s with
  | c :: s' => if is_space c then lstrip s' else s
  | [] => []
  end.

(** [s.strip()] *)
Definition strip (s : str) : str := rev (lstrip (rev (lstrip s))).

(** [s.split()]: the maximal runs of characters that are not white space.
    [cur] is the run being read, in reverse. *)
Fixpoint split_ws_from (cur : str) (s : str) : list str :=
  match s with
  | [] => match cur with [] => [] | _ => [rev cur] end
  | c :: s' =>
      if is_space c
      then match cur with
           | [] => split_ws_from [] s'
           | _ => rev cur :: split_ws_from [] s'
           end
      else split_ws_from (c :: cur) s'
  end.

Definition split_ws (s : str) : list str := split_ws_from [] s.

(** [s.split(sep)] for a separator of one character; never empty. *)
Fixpoint split_on (sep : char) (s : str) : list str :=
  match s with
  | [] => [[]]
  | c :: s' =>
      if N.eqb c sep then [] :: split_on sep s'
      else match split_on sep s' with
           | l :: ls => (c :: l) :: ls
           | [] => [[c]]
           end
  end.

(** [str(n)] for a non-negative integer. *)
Definition str_of_nat (n : nat) : str :=
  lit (DecimalString.NilEmpty.string_of_uint (Nat.to_uint n)).

(** ** Regular expressions

    The three patterns of the script use literal characters, [.*] and [$]
    only.  [re_match] is [re.match] followed by the truth test of the [if]:
    the pattern has to match at the start of the string, [.] matches any
    character but a newline, and [$] matches at the end of the string and
    just before a newline that ends the string. *)

Inductive atom : Type :=
| Lit (c : char)
| DotStar
| Dollar.

Definition regex := list atom.

Definition at_end (s : str) : bool :=
  match s with
  | [] => true
  | [c] => N.eqb c nl
  | _ => false
  end.

Fixpoint re_match (r : regex) (s : str) {struct r} : bool :=
  match r with
  | [] => true
  | Lit c :: r' =>
      match s with
      | x :: s' => N.eqb x c && re_match r' s'
      | [] => false
      end
  | Dollar :: r' => at_end s && re_match r' s
  | DotStar :: r' =>
      (fix star (s : str) : bool :=
         re_match r' s
         || match s with
            | x :: s' => negb (N.eqb x nl) && star s'
            | [] => false
            end) s
  end.

Definition lits (s : String.string) : regex := map Lit (lit s).
Arguments lits s%_string.

(** [r'.* Candidate Details'] *)
Definition re_candidate_details : regex :=
  DotStar :: lits " Candidate Details".

(** [r'.*\.pdf$'] *)
Definition re_resume : regex :=
  DotStar :: lits ".pdf" ++ [Dollar].

(** [r'.*\.pdf \(.*\)$'] *)
Definition re_resume_error : regex :=
  DotStar :: lits ".pdf (" ++ DotStar :: lits ")" ++ [Dollar].

Definition is_candidate_details (title : str) : bool :=
  re_match re_candidate_details title.
Definition is_resume_ok (title : str) : bool :=
  re_match re_resume title.
Definition is_resume_error (title : str) : bool :=
  re_match re_resume_error title.

(** The branches of the loop body that a title takes: the first [if]
    (line 82) stands alone, the second (line 111) has an [elif] (line 134). *)
Inductive category : Type :=
| CandidateDetails
| ResumeOk
| ResumeError
| Unrecognized.

Definition branches_taken (title : str) : list category :=
  (if is_candidate_details title then [CandidateDetails] else [])
  ++ (if is_resume_ok title then [ResumeOk]
      else if is_resume_error title then [ResumeError] else []).

Definition categories (title : str) : list category :=
  match branches_taken title with
  | [] => [Unrecognized]
  | l => l
  end.

(** ** Exceptions and Python indexing *)

Inductive exn : Type :=
| IndexError
| ValueError
| AttributeError.

Inductive outcome (A : Type) : Type :=
| Ok (a : A)
| Raise (e : exn).
Arguments Ok {A} a.
Arguments Raise {A} e.

(** [l[n]] for [n >= 0] *)
Definition py_index {A} (l : list A) (n : nat) : outcome A :=
  match nth_error l n with
  | Some a => Ok a
  | None => Raise IndexError
  end.

(** [l[-1]] *)
Definition py_last {A} (l : list A) : outcome A :=
  match rev l with
  | a :: _ => Ok a
  | [] => Raise IndexError
  end.

(** [l.index(x)] *)
Fixpoint list_index (x : str) (l : list str) : outcome nat :=
  match l with
  | [] => Raise ValueError
  | y :: l' =>
      if str_eqb y x then Ok 0
      else match list_index x l' with
           | Ok n => Ok (S n)
           | Raise e => Raise e
           end
  end.

(** The position that [l[i]] reads in a list of length [len]: a negative
    [i] counts from the end; [None] is an [IndexError]. *)
Definition py_position (len : nat) (i : Z) : option nat :=
  if (0 <=? i)%Z
  then (if (i <? Z.of_nat len)%Z then Some (Z.to_nat i) else None)
  else (if (- Z.of_nat len <=? i)%Z then Some (Z.to_nat (Z.of_nat len + i))
        else None).

(** [range(a, b)] *)
Definition range (a b : Z) : list Z :=
  map (fun k => (a + Z.of_nat k)%Z) (seq 0 (Z.to_nat (b - a))).

(** ** The document *)

(** A destination: its title and what the reader finds for its page:
    [Some n], the number of the page, with [n = -1] when the page is not
    in the page tree of the document, or [None] when the destination has
    no page object. *)
Record Destination : Type := mkDest {
  title : str;
  dest_page : option Z
}.

(** An element of [doc.outlines]: a destination, or the list of the
    sub-destinations of the destination before it. *)
Inductive outline_item : Type :=
| Dest (d : Destination)
| Nested (l : list outline_item).

Record Page : Type := mkPage {
  page_index : nat;
  page_text : str
}.

Record Doc : Type := mkDoc {
  pages : list str;
  outlines : list outline_item
}.

Definition getNumPages (doc : Doc) : nat := length (pages doc).

Definition getDestinationPageNumber (doc : Doc) (dest : Destination)
    : outcome Z :=
  match dest_page dest with
  | Some n => Ok n
  | None => Raise AttributeError
  end.

(** [self.flattenedPages[pageNumber]]; the page returned knows its place
    in the document. *)
Definition getPage (doc : Doc) (n : Z) : outcome Page :=
  match py_position (List.length (pages doc)) n with
  | Some k =>
      match nth_error (pages doc) k with
      | Some t => Ok (mkPage k t)
      | None => Raise IndexError
      end
  | None => Raise IndexError
  end.

Definition extractText (p : Page) : str := page_text p.

(** A destination whose page is page [n] of the document, counted from 0. *)
Definition dest_at (t : str) (n : nat) : Destination :=
  mkDest t (Some (Z.of_nat n)).


(** ** State of the run *)

(** A row of [candidates.csv]. *)
Record row : Type := mkRow {
  row_id : nat;
  row_title : str;
  row_first_name : str;
  row_last_name : str;
  row_email : str
}.

Record state : Type := mkState {
  candidate_id : nat;
  resume_count : nat;
  resume_errors : nat;
  csv_rows : list row;                     (* rows written, in order *)
  resume_files : list (str * list Page)    (* files written, in order;
                                              a later one of the same name
                                              replaces the earlier one *)
}.

(** Lines 57-62. *)
Definition initial_state : state := mkState 0 0 0 [] [].

(** A computation changes the state and returns or raises; the state
    reached is kept when it raises. *)
Definition M (A : Type) : Type := state -> state * outcome A.

Definition ret {A} (a : A) : M A := fun st => (st, Ok a).

Definition bind {A B} (m : M A) (k : A -> M B) : M B :=
  fun st =>
    match m st with
    | (st', Ok a) => k a st'
    | (st', Raise e) => (st', Raise e)
    end.

Definition lift {A} (o : outcome A) : M A := fun st => (st, o).

Definition modify (f : state -> state) : M unit := fun st => (f st, Ok tt).

Definition get {A} (f : state -> A) : M A := fun st => (st, Ok (f st)).

Notation "x <- m ;; k" := (bind m (fun x => k))
  (at level 61, m at next level, right associativity).
Notation "m ;;; k" := (bind m (fun _ => k))
  (at level 61, right associativity).

(** The same sequencing for computations without state. *)
Definition obind {A B} (o : outcome A) (k : A -> outcome B) : outcome B :=
  match o with
  | Ok a => k a
  | Raise e => Raise e
  end.

Notation "x <~ o ;; k" := (obind o (fun x => k))
  (at level 61, o at next level, right associativity).

(** ** Candidate details (lines 86-99) *)

(** [TITLES] *)
Definition TITLES : list str :=
  [lit "Mr"; lit "Mrs"; lit "Ms"; lit "Miss"; lit "Dr"; lit "Professor"].

Definition in_titles (s : str) : bool := existsb (str_eqb s) TITLES.

(** Lines 89-98: title, first name and last name from the tokens of the
    name line. *)
Definition parse_fullname (c_fullname : list str) : outcome (str * str * str) :=
  first <~ py_index c_fullname 0 ;;
  tf <~ (if in_titles first
         then (c_firstname <~ py_index c_fullname 1 ;; Ok (first, c_firstname))
         else Ok ([], first)) ;;
  c_lastname <~ py_last c_fullname ;;
  Ok (fst tf, snd tf, c_lastname).

(** Line 99. *)
Definition parse_email (details : list str) : outcome str :=
  idx <~ list_index (lit "Email Address:") details ;;
  line <~ py_index details (idx + 1) ;;
  Ok (strip line).

(** Lines 86-99 on the text of the page. *)
Definition extract_details (text : str) : outcome (str * str * str * str) :=
  let details := split_on nl text in
  name_line <~ py_index details 0 ;;
  let c_fullname := split_ws (strip name_line) in
  name <~ parse_fullname c_fullname ;;
  c_email <~ parse_email details ;;
  Ok (name, c_email).

(** [candidate_id += 1] *)
Definition incr_candidate_id (st : state) : state :=
  mkState (candidate_id st + 1) (resume_count st) (resume_errors st)
          (csv_rows st) (resume_files st).

(** [csvwriter.writerow] *)
Definition add_row (r : row) (st : state) : state :=
  mkState (candidate_id st) (resume_count st) (resume_errors st)
          (csv_rows st ++ [r]) (resume_files st).

(** Lines 82-106. *)
Definition candidate_branch (dest : Destination) (page : Page) : M unit :=
  if is_candidate_details (title dest) then
    modify incr_candidate_id ;;;
    d <- lift (extract_details (extractText page)) ;;
    id <- get candidate_id ;;
    let '(c_title, c_firstname, c_lastname, c_email) := d in
    modify (add_row (mkRow id c_title c_firstname c_lastname c_email))
  else ret tt.

(** ** Resumes (lines 111-136) *)

(** Lines 116-121: [l] is [doc.outlines[k:]] for the first [k] that the
    loop reads; running off the end of the outline is an [IndexError]. *)
Fixpoint scan_next (l : list outline_item) : outcome Destination :=
  match l with
  | [] => Raise IndexError
  | Nested _ :: l' => scan_next l'
  | Dest d :: _ => Ok d
  end.

Definition next_destination (doc : Doc) (i : nat) : outcome Destination :=
  scan_next (skipn (i + 1) (outlines doc)).

(** Lines 126-128. *)
Fixpoint add_pages (doc : Doc) (js : list Z) : outcome (list Page) :=
  match js with
  | [] => Ok []
  | j :: js' =>
      p <~ getPage doc j ;;
      ps <~ add_pages doc js' ;;
      Ok (p :: ps)
  end.

Definition OUTPUT_DIR : str := lit "output".

(** ["{0}/resumes/{1}.pdf".format(OUTPUT_DIR, candidate_id)] *)
Definition resume_path (id : nat) : str :=
  OUTPUT_DIR ++ lit "/resumes/" ++ str_of_nat id ++ lit ".pdf".

(** [resume_count += 1] *)
Definition incr_resume_count (st : state) : state :=
  mkState (candidate_id st) (resume_count st + 1) (resume_errors st)
          (csv_rows st) (resume_files st).

(** [resume_errors += 1] *)
Definition incr_resume_errors (st : state) : state :=
  mkState (candidate_id st) (resume_count st) (resume_errors st + 1)
          (csv_rows st) (resume_files st).

(** [with open(path, "wb") as file: resume.write(file)] *)
Definition add_file (path : str) (content : list Page) (st : state) : state :=
  mkState (candidate_id st) (resume_count st) (resume_errors st)
          (csv_rows st) (resume_files st ++ [(path, content)]).

Definition resume_branch (doc : Doc) (i : nat) (dest : Destination)
    (page_num : Z) : M unit :=
  if is_resume_ok (title dest) then
    modify incr_resume_count ;;;
    next_dest <- lift (next_destination doc i) ;;
    next_dest_pagenum <- lift (getDestinationPageNumber doc next_dest) ;;
    resume <- lift (add_pages doc (range page_num next_dest_pagenum)) ;;
    id <- get candidate_id ;;
    modify (add_file (resume_path id) resume)
  else if is_resume_error (title dest) then
    modify incr_resume_errors
  else ret tt.

(** Lines 78-79 together: the page number of the bookmark and its page. *)
Definition read_page (doc : Doc) (d : Destination) : outcome (Z * Page) :=
  page_num <~ getDestinationPageNumber doc d ;;
  page <~ getPage doc page_num ;;
  Ok (page_num, page).

(** Lines 116-124 together: the page number of the top-level bookmark after
    position [i]. *)
Definition next_page (doc : Doc) (i : nat) : outcome Z :=
  next_dest <~ next_destination doc i ;;
  getDestinationPageNumber doc next_dest.

(** ** The loops *)

(** Lines 73-136: the body of the loop over [enumerate(doc.outlines)]. *)
Definition loop_body (doc : Doc) (i : nat) (it : outline_item) : M unit :=
  match it with
  | Nested _ => ret tt
  | Dest dest =>
      page_num <- lift (getDestinationPageNumber doc dest) ;;
      page <- lift (getPage doc page_num) ;;
      candidate_branch dest page ;;;
      resume_branch doc i dest page_num
  end.

(** The loop from position [i], over the items from there on. *)
Fixpoint outline_loop (doc : Doc) (i : nat) (items : list outline_item) : M unit :=
  match items with
  | [] => ret tt
  | it :: items' => loop_body doc i it ;;; outline_loop doc (S i) items'
  end.

(** Lines 66-136 for one input PDF. *)
Definition process_doc (doc : Doc) : M unit :=
  outline_loop doc 0 (outlines doc).

(** Lines 65-136. *)
Fixpoint process_docs (docs : list Doc) : M unit :=
  match docs with
  | [] => ret tt
  | doc :: docs' => process_doc doc ;;; process_docs docs'
  end.

Definition run (docs : list Doc) : state * outcome unit :=
  process_docs docs initial_state.

(** The ids of the rows of the CSV file. *)
Definition output_ids (st : state) : list nat := map row_id (csv_rows st).

(** The titles of the top-level bookmarks, in order. *)
Fixpoint top_level (items : list outline_item) : list Destination :=
  match items with
  | [] => []
  | Dest d :: items' => d :: top_level items'
  | Nested _ :: items' => top_level items'
  end.

Definition count_details (items : list outline_item) : nat :=
  List.length (filter (fun d => is_candidate_details (title d)) (top_level items)).

(** [s.endswith(suffix)], used to state the suffix reading of a pattern. *)
Definition endswith (s suffix : str) : bool :=
  str_eqb (skipn (List.length s - List.length suffix) s) suffix.

(** No newline in [s]: what [.*] can run over. *)
Definition no_newline (s : str) : bool :=
  forallb (fun c => negb (N.eqb c nl)) s.

(** The next top-level bookmark after position [i], by positions: the
    destination at position [k] when only lists lie between [i] and [k]. *)
Definition is_next_top_level (doc : Doc) (i k : nat) (nd : Destination) : Prop :=
  i < k /\ nth_error (outlines doc) k = Some (Dest nd) /\
  forall j, i < j < k -> exists l, nth_error (outlines doc) j = Some (Nested l).

Definition total_details (docs : list Doc) : nat :=
  list_sum (map (fun doc => count_details (outlines doc)) docs).

(** The rows carry the ids 1, 2, ... in order, and the counter is the id of
    the last row. *)
Definition counted (st : state) : Prop :=
  output_ids st = seq 1 (List.length (csv_rows st)) /\
  List.length (csv_rows st) = candidate_id st.

(** The same while the row of the last id may still be missing. *)
Definition counted_upto (st : state) : Prop :=
  output_ids st = seq 1 (List.length (csv_rows st)) /\
  List.length (csv_rows st) <= candidate_id st <= List.length (csv_rows st) + 1.

(** The number of candidate-details bookmarks in one item. *)
Definition details_in (it : outline_item) : nat :=
  match it with
  | Dest d => if is_candidate_details (title d) then 1 else 0
  | Nested _ => 0
  end.

(** The page numbers of the files written, one list per file, in the order
    of writing. *)
Definition segment_indices (st : state) : list (list nat) :=
  map (fun f => map page_index (snd f)) (resume_files st).

(** The page numbers that bound the resumes of a list of top-level
    bookmarks: for each resume bookmark that has a bookmark after it, its
    own page number and the page number of that bookmark. *)
Fixpoint resume_bounds (ds : list Destination) : list (option Z) :=
  match ds with
  | [] => []
  | d :: rest =>
      match rest with
      | nd :: _ =>
          if is_resume_ok (title d) then [dest_page d; dest_page nd] else []
      | [] => []
      end ++ resume_bounds rest
  end.

(** The resume bookmarks and the bookmarks that follow them point to pages
    of the document that do not go backwards along the outline. The other
    bookmarks may point anywhere. *)
Definition resumes_in_order (items : list outline_item) : Prop :=
  exists ns : list nat,
    resume_bounds (top_level items) = map (fun n => Some (Z.of_nat n)) ns /\
    StronglySorted le ns.

(** Every page of every file written is a page of [doc], with its text. *)
Definition pages_from (doc : Doc) (st : state) : Prop :=
  Forall (fun f => Forall (fun p => nth_error (pages doc) (page_index p)
                                    = Some (page_text p)) (snd f))
         (resume_files st).

(** What the loop keeps true of the files written so far, [ns] being the
    bounds of the resumes still to come: the page numbers increase along
    the files, and stay below the bounds to come. *)
Definition segments_inv (doc : Doc) (ns : list nat) (st : state) : Prop :=
  StronglySorted lt (concat (segment_indices st)) /\
  (forall j n, In j (concat (segment_indices st)) -> In n ns -> j < n) /\
  pages_from doc st.

(** The files written so far are named by candidate ids that do not
    decrease and do not exceed the counter. *)
Definition named_in_order (st : state) : Prop :=
  exists ids,
    map fst (resume_files st) = map resume_path ids /\
    StronglySorted le ids /\
    Forall (fun k => k <= candidate_id st) ids.

(** ** Whole-run summaries *)

(** The document with the lists of sub-destinations taken out of its
    outline. *)
Definition flatten_outline (doc : Doc) : Doc :=
  mkDoc (pages doc) (map Dest (top_level (outlines doc))).

(** Every item of the outline after position [i] is a list. *)
Definition only_lists_after (doc : Doc) (i : nat) : Prop :=
  forall j it, i < j -> nth_error (outlines doc) j = Some it ->
               exists l, it = Nested l.

(** The numbers of resume and of resume-error bookmarks at the top level. *)
Definition count_resumes (items : list outline_item) : nat :=
  List.length (filter (fun d => is_resume_ok (title d)) (top_level items)).

Definition count_resume_errors (items : list outline_item) : nat :=
  List.length (filter (fun d => is_resume_error (title d)) (top_level items)).

Definition total_resumes (docs : list Doc) : nat :=
  list_sum (map (fun doc => count_resumes (outlines doc)) docs).

Definition total_resume_errors (docs : list Doc) : nat :=
  list_sum (map (fun doc => count_resume_errors (outlines doc)) docs).

(** [st'] keeps what [st] has: rows and files are only added at the end,
    and no counter goes down. *)
Definition extends (st st' : state) : Prop :=
  (exists rows, csv_rows st' = csv_rows st ++ rows) /\
  (exists files, resume_files st' = resume_files st ++ files) /\
  candidate_id st <= candidate_id st' /\
  resume_count st <= resume_count st' /\
  resume_errors st <= resume_errors st'.

(** One file per resume counted. *)
Definition files_counted (st : state) : Prop :=
  List.length (resume_files st) = resume_count st.

(** Lines 78-79 return on the bookmark: it has a page number, and the
    list of pages has a page at that number. *)
Definition page_read (doc : Doc) (d : Destination) : Prop :=
  exists n page, dest_page d = Some n /\ getPage doc n = Ok page.

(** The bookmark points to a page of the document. *)
Definition page_inside (doc : Doc) (d : Destination) : Prop :=
  exists n, dest_page d = Some (Z.of_nat n) /\ n < getNumPages doc.

(** The page of a details bookmark can be read as a candidate. *)
Definition details_ok (doc : Doc) (d : Destination) : Prop :=
  is_candidate_details (title d) = true ->
  exists n page r, dest_page d = Some n /\ getPage doc n = Ok page /\
                   extract_details (extractText page) = Ok r.

(** What a list of top-level bookmarks needs, and all it needs, for the
    loop to get through: a page read for each bookmark, details pages that
    can be read as candidates, and no resume bookmark at the very end. *)
Definition passable_list (doc : Doc) (ds : list Destination) : Prop :=
  Forall (page_read doc) ds /\
  Forall (details_ok doc) ds /\
  (forall ds' d, ds = ds' ++ [d] -> is_resume_ok (title d) = false).

Definition gets_through (doc : Doc) : Prop :=
  passable_list doc (top_level (outlines doc)).

(** The same with every bookmark pointing to a page of the document. *)
Definition clean_list (doc : Doc) (ds : list Destination) : Prop :=
  Forall (page_inside doc) ds /\
  Forall (details_ok doc) ds /\
  (forall ds' d, ds = ds' ++ [d] -> is_resume_ok (title d) = false).

Definition runs_clean (doc : Doc) : Prop :=
  clean_list doc (top_level (outlines doc)).

(** The candidate-details bookmarks of an outline, in order. *)
Definition details_of (items : list outline_item) : list Destination :=
  filter (fun d => is_candidate_details (title d)) (top_level items).

(** The fields of row [r] are read from the page of bookmark [d]. *)
Definition row_of (doc : Doc) (d : Destination) (r : row) : Prop :=
  exists n page,
    dest_page d = Some n /\
    getPage doc n = Ok page /\
    extract_details (extractText page)
    = Ok (row_title r, row_first_name r, row_last_name r, row_email r).

(** Every file written is named by an id that is at most the number of
    rows written. *)
Definition files_within_rows (st : state) : Prop :=
  exists ids,
    map fst (resume_files st) = map resume_path ids /\
    Forall (fun k => k <= List.length (csv_rows st)) ids.

(** A token of [str.split()]: not empty and without white space. *)
Definition is_token (s : str) : Prop :=
  s <> [] /\ forallb (fun c => negb (is_space c)) s = true.

(** No white space at either end. *)
Definition trimmed (s : str) : Prop :=
  (forall c r, s = c :: r -> is_space c = false) /\
  (forall c r, s = r ++ [c] -> is_space c = false).

Definition row_well_formed (r : row) : Prop :=
  (row_title r = [] \/ In (row_title r) TITLES) /\
  is_token (row_first_name r) /\
  is_token (row_last_name r) /\
  trimmed (row_email r).

(** The page that a bookmark inside the document points to. *)
Definition page_nat (d : Destination) : nat :=
  match dest_page d with
  | Some n => Z.to_nat n
  | None => 0
  end.

(** The page ranges that the resume bookmarks of a list of top-level
    bookmarks stand for: from the page of the bookmark to the page of the
    bookmark after it. *)
Fixpoint resume_ranges (ds : list Destination) : list (nat * nat) :=
  match ds with
  | [] => []
  | d :: rest =>
      match rest with
      | nd :: _ =>
          if is_resume_ok (title d) then [(page_nat d, page_nat nd)] else []
      | [] => []
      end ++ resume_ranges rest
  end.

(** The candidate ids under which the resume bookmarks of a list of
    top-level bookmarks are filed, [c] being the counter before the list:
    the number of candidate-details bookmarks met so far, the bookmark
    itself included. *)
Fixpoint resume_owners (c : nat) (ds : list Destination) : list nat :=
  match ds with
  | [] => []
  | d :: rest =>
      let c' := c + (if is_candidate_details (title d) then 1 else 0) in
      match rest with
      | _ :: _ => if is_resume_ok (title d) then [c'] else []
      | [] => []
      end ++ resume_owners c' rest
  end.

(** The pages of a file are the pages that [doc] gives at the numbers of
    [range(a, b)], with their text, [a] being the page number of a resume
    bookmark of the document and [b] that of another of its top-level
    bookmarks; from a number [a] that is not negative they are consecutive
    pages in the order of the document. *)
Definition pages_of_range (doc : Doc) (seg : list Page) : Prop :=
  exists (d nd : Destination) (a b : Z),
    In d (top_level (outlines doc)) /\ In nd (top_level (outlines doc)) /\
    is_resume_ok (title d) = true /\
    dest_page d = Some a /\ dest_page nd = Some b /\
    Forall2 (fun j p => getPage doc j = Ok p) (range a b) seg /\
    Forall (fun p => nth_error (pages doc) (page_index p) = Some (page_text p)) seg /\
    ((0 <= a)%Z ->
     map page_index seg = seq (Z.to_nat a) (Z.to_nat (b - a))).

(** What is left in the output folder under a name: the last file written
    with that name. *)
Fixpoint last_written (files : list (str * list Page)) (path : str)
    : option (list Page) :=
  match files with
  | [] => None
  | (p, content) :: files' =>
      match last_written files' path with
      | Some later => Some later
      | None => if str_eqb p path then Some content else None
      end
  end.

Definition output_folder (st : state) (path : str) : option (list Page) :=
  last_written (resume_files st) path.

(** ** Example documents *)

Definition details_text : str :=
  lit "Mr John Q Public" ++ [nl] ++ lit "Email Address:" ++ [nl]
  ++ lit " john@example.org ".

(** Details at page 10, the resume at page 10 with bookmarks of its own,
    the next top-level bookmark at page 13. *)
Definition doc_scenario : Doc :=
  mkDoc (repeat details_text 14)
        [Dest (dest_at (lit "3. Candidate Details") 10);
         Dest (dest_at (lit "resume.pdf") 10);
         Nested [Dest (dest_at (lit "Education") 11)];
         Dest (dest_at (lit "Cover letter") 13)].

(** The resume is the last top-level bookmark. *)
Definition doc_resume_last : Doc :=
  mkDoc (repeat details_text 3)
        [Dest (dest_at (lit "1. Candidate Details") 0);
         Dest (dest_at (lit "resume.pdf") 1);
         Nested [Dest (dest_at (lit "Education") 2)]].

(** One bookmark matches two patterns. *)
Definition doc_two_branches : Doc :=
  mkDoc (repeat details_text 2)
        [Dest (dest_at (lit "7. Candidate Details.pdf") 0);
         Dest (dest_at (lit "End") 1)].

(** The first details page has no email label, the second is well formed. *)
Definition doc_bad_email : Doc :=
  mkDoc [lit "Jane Doe"; details_text]
        [Dest (dest_at (lit "1. Candidate Details") 0);
         Dest (dest_at (lit "2. Candidate Details") 1)].

(** The second resume bookmark points before the end of the first resume. *)
Definition doc_overlap : Doc :=
  mkDoc (repeat details_text 5)
        [Dest (dest_at (lit "1. Candidate Details") 0);
         Dest (dest_at (lit "a.pdf") 1);
         Dest (dest_at (lit "2. Candidate Details") 3);
         Dest (dest_at (lit "b.pdf") 2);
         Dest (dest_at (lit "End") 4)].

(** A resume before the first details page. *)
Definition doc_orphan : Doc :=
  mkDoc (repeat details_text 4)
        [Dest (dest_at (lit "resume.pdf") 0);
         Dest (dest_at (lit "1. Candidate Details") 2);
         Dest (dest_at (lit "End") 3)].

(** The page of the resume bookmark was not found in the document. *)
Definition doc_unresolved : Doc :=
  mkDoc (repeat details_text 5)
        [Dest (dest_at (lit "1. Candidate Details") 0);
         Dest (mkDest (lit "resume.pdf") (Some (-1)%Z));
         Dest (dest_at (lit "End") 2)].

(** The details pages come after the resumes in the document; the resumes
    themselves are in order. *)
Definition doc_anomaly : Doc :=
  mkDoc (repeat details_text 8)
        [Dest (dest_at (lit "1. Candidate Details") 7);
         Dest (dest_at (lit "a.pdf") 1);
         Dest (dest_at (lit "2. Candidate Details") 4);
         Dest (dest_at (lit "b.pdf") 5);
         Dest (dest_at (lit "End") 6)].

(** Two resumes under one candidate. *)
Definition doc_two_resumes : Doc :=
  mkDoc (repeat details_text 6)
        [Dest (dest_at (lit "1. Candidate Details") 0);
         Dest (dest_at (lit "a.pdf") 1);
         Dest (dest_at (lit "b.pdf") 3);
         Dest (dest_at (lit "2. Candidate Details") 5)].

(** * Properties *)

(** ** The patterns *)

Section Regex.

Lemma str_eqb_eq (a b : str) : str_eqb a b = true <-> a = b.
Proof.
  unfold str_eqb. destruct (list_eq_dec N.eq_dec a b); split; congruence.
Qed.

Lemma re_match_lits (w : str) (r : regex) (s : str) :
  re_match (map Lit w ++ r) s = true <->
  exists s', s = w ++ s' /\ re_match r s' = true.
Proof.
  revert s. induction w as [|c w IH]; intros s; simpl.
  - split.
    + intros H. now exists s.
    + intros (s' & -> & H). exact H.
  - destruct s as [|x s].
    + split; [discriminate | intros (s' & E & _); discriminate].
    + rewrite andb_true_iff, N.eqb_eq, IH. split.
      * intros (-> & s' & -> & H). now exists s'.
      * intros (s' & E & H). injection E as -> ->. split; [reflexivity|]. now exists s'.
Qed.

Lemma re_match_dotstar (r : regex) (s : str) :
  re_match (DotStar :: r) s = true <->
  exists p s', s = p ++ s' /\ no_newline p = true /\ re_match r s' = true.
Proof.
  simpl. induction s as [|x s IH].
  - rewrite orb_false_r. split.
    + intros H. now exists [], [].
    + intros (p & s' & E & _ & H).
      symmetry in E. apply app_eq_nil in E as [_ ->]. exact H.
  - rewrite orb_true_iff, andb_true_iff, IH. split.
    + intros [H | (Hx & p & s' & -> & Hp & H)].
      * now exists [], (x :: s).
      * exists (x :: p), s'. simpl. rewrite Hx, Hp. auto.
    + intros (p & s' & E & Hp & H). destruct p as [|y p]; simpl in *.
      * subst s'. now left.
      * injection E as -> ->. apply andb_true_iff in Hp as [Hy Hp].
        right. split; [exact Hy|]. now exists p, s'.
Qed.

Lemma re_match_dollar (s : str) :
  re_match [Dollar] s = true <-> s = [] \/ s = [nl].
Proof.
  simpl. rewrite andb_true_r. destruct s as [|c [|c' s]]; simpl.
  - intuition.
  - rewrite N.eqb_eq. split; [intros ->; now right | intros [H|H]; congruence].
  - split; [discriminate | intros [H|H]; discriminate].
Qed.

Lemma is_candidate_details_iff (t : str) :
  is_candidate_details t = true <->
  exists p q, t = p ++ lit " Candidate Details" ++ q /\ no_newline p = true.
Proof.
  unfold is_candidate_details, re_candidate_details, lits.
  rewrite re_match_dotstar. split.
  - intros (p & s' & -> & Hp & H).
    rewrite <- (app_nil_r (map Lit _)) in H.
    apply re_match_lits in H as (q & -> & _). now exists p, q.
  - intros (p & q & -> & Hp). exists p, (lit " Candidate Details" ++ q).
    split; [reflexivity | split; [exact Hp|]].
    rewrite <- (app_nil_r (map Lit _)). apply re_match_lits. now exists q.
Qed.

Lemma is_resume_ok_iff (t : str) :
  is_resume_ok t = true <->
  exists p, no_newline p = true /\
            (t = p ++ lit ".pdf" \/ t = p ++ lit ".pdf" ++ [nl]).
Proof.
  unfold is_resume_ok, re_resume, lits. rewrite re_match_dotstar. split.
  - intros (p & s' & -> & Hp & H).
    apply re_match_lits in H as (q & -> & H).
    apply re_match_dollar in H as [-> | ->]; exists p; split; auto.
  - intros (p & Hp & [-> | ->]).
    + exists p, (lit ".pdf"). split; [reflexivity | split; [exact Hp|]].
      apply re_match_lits. exists []. rewrite app_nil_r. split; [reflexivity|].
      apply re_match_dollar. now left.
    + exists p, (lit ".pdf" ++ [nl]). split; [reflexivity | split; [exact Hp|]].
      apply re_match_lits. exists [nl]. split; [reflexivity|].
      apply re_match_dollar. now right.
Qed.

Lemma is_resume_error_iff (t : str) :
  is_resume_error t = true <->
  exists p q, no_newline p = true /\ no_newline q = true /\
    (t = p ++ lit ".pdf (" ++ q ++ lit ")" \/
     t = p ++ lit ".pdf (" ++ q ++ lit ")" ++ [nl]).
Proof.
  unfold is_resume_error, re_resume_error, lits. rewrite re_match_dotstar. split.
  - intros (p & s' & -> & Hp & H).
    apply re_match_lits in H as (s1 & -> & H).
    apply re_match_dotstar in H as (q & s2 & -> & Hq & H).
    apply re_match_lits in H as (s3 & -> & H).
    apply re_match_dollar in H as [-> | ->]; exists p, q; repeat split; auto.
  - intros (p & q & Hp & Hq & H).
    assert (exists e, (e = [] \/ e = [nl]) /\ t = p ++ lit ".pdf (" ++ q ++ lit ")" ++ e)
      as (e & He & ->).
    { destruct H as [-> | ->]; [exists [] | exists [nl]]; auto. }
    exists p, (lit ".pdf (" ++ q ++ lit ")" ++ e). split; [reflexivity | split; [exact Hp|]].
    apply re_match_lits. exists (q ++ lit ")" ++ e). split; [reflexivity|].
    apply re_match_dotstar. exists q, (lit ")" ++ e). split; [reflexivity | split; [exact Hq|]].
    apply re_match_lits. exists e. split; [reflexivity|].
    now apply re_match_dollar.
Qed.

(** A title that ends in [.pdf] does not end in a parenthesis: the [elif]
    of line 134 hides no title that its pattern matches. *)
Lemma resume_ok_not_error (t : str) :
  is_resume_ok t = true -> is_resume_error t = false.
Proof.
  intros Hok. destruct (is_resume_error t) eqn:Herr; [exfalso | reflexivity].
  apply is_resume_ok_iff in Hok as (p & _ & Hok).
  apply is_resume_error_iff in Herr as (p' & q & _ & _ & Herr).
  destruct Hok as [-> | ->]; destruct Herr as [E | E];
    apply (f_equal (@rev char)) in E;
    repeat rewrite ?rev_app_distr, ?app_assoc in E; simpl in E;
    discriminate.
Qed.

End Regex.

(** ** Names of files *)

Section PathNames.

Lemma map_injective (A B : Type) (f : A -> B) :
  (forall x y, f x = f y -> x = y) ->
  forall l l', map f l = map f l' -> l = l'.
Proof.
  intros Hf. induction l as [|x l IH]; intros [|y l'] H; simpl in H;
    try discriminate; [reflexivity|].
  injection H as Hxy H. now rewrite (Hf _ _ Hxy), (IH _ H).
Qed.

Lemma lit_injective (a b : string) : lit a = lit b -> a = b.
Proof.
  unfold lit. intros H. apply map_injective in H.
  - rewrite <- (string_of_list_ascii_of_string a),
            <- (string_of_list_ascii_of_string b). now rewrite H.
  - intros x y Hxy. rewrite <- (ascii_N_embedding x), <- (ascii_N_embedding y).
    now rewrite Hxy.
Qed.

Lemma str_of_nat_injective (n m : nat) : str_of_nat n = str_of_nat m -> n = m.
Proof.
  unfold str_of_nat. intros H. apply lit_injective in H.
  apply DecimalNat.Unsigned.to_uint_inj.
  pose proof (NilEmpty.usu (Nat.to_uint n)) as Hn.
  pose proof (NilEmpty.usu (Nat.to_uint m)) as Hm.
  rewrite H in Hn. congruence.
Qed.

Lemma resume_path_inj (n m : nat) : resume_path n = resume_path m -> n = m.
Proof.
  unfold resume_path. intros H.
  apply app_inv_head in H. apply app_inv_head in H. apply app_inv_tail in H.
  now apply str_of_nat_injective.
Qed.

Lemma resume_paths_inj (ids ids' : list nat) :
  map resume_path ids = map resume_path ids' -> ids = ids'.
Proof.
  apply map_injective. exact resume_path_inj.
Qed.

(** The name in full. *)
Lemma resume_path_text (n : nat) :
  resume_path n = lit "output/resumes/" ++ str_of_nat n ++ lit ".pdf".
Proof. reflexivity. Qed.

End PathNames.

(** ** Python indexing of the pages *)

Section Indexing.

Variable doc : Doc.

Lemma py_position_some (len : nat) (i : Z) (k : nat) :
  py_position len i = Some k ->
  (- Z.of_nat len <= i < Z.of_nat len)%Z /\ k < len /\
  ((0 <= i)%Z -> k = Z.to_nat i).
Proof.
  unfold py_position.
  destruct (0 <=? i)%Z eqn:H0.
  - destruct (i <? Z.of_nat len)%Z eqn:H1; [|discriminate].
    intros [= <-]. lia.
  - destruct (- Z.of_nat len <=? i)%Z eqn:H1; [|discriminate].
    intros [= <-]. lia.
Qed.

Lemma py_position_valid (len : nat) (i : Z) :
  (- Z.of_nat len <= i < Z.of_nat len)%Z -> exists k, py_position len i = Some k.
Proof.
  intros H. unfold py_position.
  destruct (0 <=? i)%Z eqn:H0.
  - destruct (i <? Z.of_nat len)%Z eqn:H1; [eauto | lia].
  - destruct (- Z.of_nat len <=? i)%Z eqn:H1; [eauto | lia].
Qed.

Lemma py_position_nat (len k : nat) :
  k < len -> py_position len (Z.of_nat k) = Some k.
Proof.
  intros H. unfold py_position.
  destruct (0 <=? Z.of_nat k)%Z eqn:H0; [|lia].
  destruct (Z.of_nat k <? Z.of_nat len)%Z eqn:H1; [|lia].
  now rewrite Nat2Z.id.
Qed.

(** A page that [getPage] returns is a page of the document, with its
    text, at the place that its number stands for. *)
Lemma getPage_inv (n : Z) (p : Page) :
  getPage doc n = Ok p ->
  py_position (getNumPages doc) n = Some (page_index p) /\
  nth_error (pages doc) (page_index p) = Some (page_text p).
Proof.
  unfold getPage, getNumPages.
  destruct (py_position (List.length (pages doc)) n) as [k|]; [|discriminate].
  destruct (nth_error (pages doc) k) as [t|] eqn:Ht; [|discriminate].
  intros [= <-]. simpl. auto.
Qed.

Lemma getPage_ok_iff (n : Z) :
  (exists p, getPage doc n = Ok p) <->
  (- Z.of_nat (getNumPages doc) <= n < Z.of_nat (getNumPages doc))%Z.
Proof.
  split.
  - intros [p H]. apply getPage_inv in H as [H _].
    now apply py_position_some in H.
  - intros H. destruct (py_position_valid _ H) as [k Hk].
    unfold getPage. fold (getNumPages doc). rewrite Hk.
    apply py_position_some in Hk as (_ & Hlt & _).
    destruct (nth_error (pages doc) k) as [t|] eqn:Ht; [eauto|].
    apply nth_error_None in Ht. unfold getNumPages in Hlt. lia.
Qed.

Lemma getPage_raises (n : Z) (e : exn) :
  getPage doc n = Raise e -> e = IndexError.
Proof.
  unfold getPage. destruct (py_position _ n) as [k|]; [|now intros [= <-]].
  destruct (nth_error (pages doc) k); [discriminate | now intros [= <-]].
Qed.

Lemma getPage_nat (k : nat) (p : Page) :
  getPage doc (Z.of_nat k) = Ok p ->
  page_index p = k /\ nth_error (pages doc) k = Some (page_text p).
Proof.
  intros H. apply getPage_inv in H as [Hpos Htext].
  pose proof (py_position_some _ _ Hpos) as (_ & _ & Hk).
  specialize (Hk (Nat2Z.is_nonneg k)). rewrite Nat2Z.id in Hk.
  now rewrite Hk in Htext |- *.
Qed.

Lemma getPage_nat_ok (k : nat) :
  k < getNumPages doc -> exists p, getPage doc (Z.of_nat k) = Ok p.
Proof.
  intros H. apply getPage_ok_iff. lia.
Qed.

Lemma in_range (a b j : Z) : In j (range a b) <-> (a <= j < b)%Z.
Proof.
  unfold range. rewrite in_map_iff. split.
  - intros (k & <- & Hk). apply in_seq in Hk. lia.
  - intros H. exists (Z.to_nat (j - a)). split; [lia|]. apply in_seq. lia.
Qed.

Lemma range_nat (a b : nat) :
  range (Z.of_nat a) (Z.of_nat b) = map Z.of_nat (seq a (b - a)).
Proof.
  unfold range. replace (Z.to_nat (Z.of_nat b - Z.of_nat a)) with (b - a) by lia.
  generalize (b - a). intros n. revert a.
  assert (H : forall s a, map (fun k => (Z.of_nat a + Z.of_nat k)%Z) (seq s n)
                          = map Z.of_nat (seq (a + s) n)).
  { induction n as [|n IH]; intros s a; simpl; [reflexivity|].
    rewrite IH. f_equal; [lia|]. now rewrite Nat.add_succ_r. }
  intros a. rewrite H. now rewrite Nat.add_0_r.
Qed.

Lemma range_empty (a b : Z) : (b <= a)%Z -> range a b = [].
Proof.
  intros H. unfold range. now replace (Z.to_nat (b - a)) with 0 by lia.
Qed.

(** The pages that [add_pages] collects are the pages asked for. *)
Lemma add_pages_inv (js : list Z) (seg : list Page) :
  add_pages doc js = Ok seg ->
  Forall2 (fun j p => getPage doc j = Ok p) js seg.
Proof.
  revert seg. induction js as [|j js IH]; simpl; intros seg H.
  - injection H as <-. constructor.
  - destruct (getPage doc j) as [p|] eqn:Hp; simpl in H; [|discriminate].
    destruct (add_pages doc js) as [ps|]; simpl in H; [|discriminate].
    injection H as <-. constructor; auto.
Qed.

Lemma add_pages_ok (js : list Z) :
  Forall (fun j => (- Z.of_nat (getNumPages doc) <= j < Z.of_nat (getNumPages doc))%Z) js ->
  exists seg, add_pages doc js = Ok seg.
Proof.
  induction 1 as [|j js Hj _ [seg IH]]; simpl.
  - now exists [].
  - apply getPage_ok_iff in Hj as [p Hp]. rewrite Hp, IH. simpl. eauto.
Qed.

Lemma add_pages_raises (js : list Z) (e : exn) :
  add_pages doc js = Raise e -> e = IndexError.
Proof.
  induction js as [|j js IH]; simpl; [discriminate|].
  destruct (getPage doc j) as [p|] eqn:Hp; simpl.
  - destruct (add_pages doc js); simpl; [discriminate|].
    intros [= <-]. now apply IH.
  - intros [= <-]. exact (getPage_raises _ Hp).
Qed.

Lemma add_pages_text (js : list Z) (seg : list Page) :
  add_pages doc js = Ok seg ->
  Forall (fun p => nth_error (pages doc) (page_index p) = Some (page_text p)) seg.
Proof.
  intros H. apply add_pages_inv in H.
  induction H as [|j p js seg Hp _ IH]; constructor; [|exact IH].
  exact (proj2 (getPage_inv _ Hp)).
Qed.

(** From a number that is not negative the pages collected are
    consecutive pages. *)
Lemma add_pages_indices (a b : Z) (seg : list Page) :
  (0 <= a)%Z ->
  add_pages doc (range a b) = Ok seg ->
  map page_index seg = seq (Z.to_nat a) (Z.to_nat (b - a)).
Proof.
  intros Ha H. apply add_pages_inv in H. unfold range in H.
  remember (Z.to_nat (b - a)) as n eqn:Hn. clear Hn.
  assert (G : forall s (l : list Page),
            Forall2 (fun j p => getPage doc j = Ok p)
                    (map (fun k => (a + Z.of_nat k)%Z) (seq s n)) l ->
            map page_index l = seq (Z.to_nat a + s) n).
  { clear H seg. induction n as [|n IH]; intros s l H; simpl in *.
    - now inversion H.
    - inversion H as [|j p js ps Hp Hrest]; subst. simpl.
      rewrite (IH (S s) ps Hrest), Nat.add_succ_r. f_equal.
      apply getPage_inv in Hp as [Hpos _].
      apply py_position_some in Hpos as (_ & _ & Hk). rewrite Hk; lia. }
  rewrite (G 0 seg H). now rewrite Nat.add_0_r.
Qed.

(** The pages between two numbers that the list of pages accepts. *)
Lemma add_pages_between (a b : Z) :
  (- Z.of_nat (getNumPages doc) <= a)%Z -> (b <= Z.of_nat (getNumPages doc))%Z ->
  exists seg, add_pages doc (range a b) = Ok seg.
Proof.
  intros Ha Hb. apply add_pages_ok. apply Forall_forall.
  intros j Hj. apply in_range in Hj. lia.
Qed.

End Indexing.

(** ** One pass of the loop body *)

Section Steps.

Variable doc : Doc.

Lemma candidate_branch_eq (d : Destination) (page : Page) (st : state) :
  candidate_branch d page st =
    if is_candidate_details (title d) then
      match extract_details (extractText page) with
      | Ok (c_title, c_firstname, c_lastname, c_email) =>
          (add_row (mkRow (candidate_id st + 1) c_title c_firstname c_lastname c_email)
                   (incr_candidate_id st), Ok tt)
      | Raise e => (incr_candidate_id st, Raise e)
      end
    else (st, Ok tt).
Proof.
  unfold candidate_branch. destruct (is_candidate_details (title d)); [|reflexivity].
  unfold bind, modify, lift, get.
  destruct (extract_details (extractText page)) as [[[[? ?] ?] ?]|]; reflexivity.
Qed.

Lemma resume_branch_eq (i : nat) (d : Destination) (page_num : Z) (st : state) :
  resume_branch doc i d page_num st =
    if is_resume_ok (title d) then
      match next_page doc i with
      | Ok next_dest_pagenum =>
          match add_pages doc (range page_num next_dest_pagenum) with
          | Ok resume =>
              (add_file (resume_path (candidate_id st)) resume (incr_resume_count st),
               Ok tt)
          | Raise e => (incr_resume_count st, Raise e)
          end
      | Raise e => (incr_resume_count st, Raise e)
      end
    else if is_resume_error (title d) then (incr_resume_errors st, Ok tt)
    else (st, Ok tt).
Proof.
  unfold resume_branch, next_page. destruct (is_resume_ok (title d)).
  - unfold bind, modify, lift, get.
    destruct (next_destination doc i) as [nd|]; [|reflexivity]. simpl.
    destruct (getDestinationPageNumber doc nd) as [n|]; [|reflexivity].
    destruct (add_pages doc _); reflexivity.
  - destruct (is_resume_error (title d)); reflexivity.
Qed.

Lemma loop_body_eq (i : nat) (d : Destination) (st : state) :
  loop_body doc i (Dest d) st =
    match read_page doc d with
    | Ok (page_num, page) =>
        match candidate_branch d page st with
        | (st1, Ok _) => resume_branch doc i d page_num st1
        | (st1, Raise e) => (st1, Raise e)
        end
    | Raise e => (st, Raise e)
    end.
Proof.
  unfold loop_body, read_page, bind, lift.
  destruct (getDestinationPageNumber doc d) as [n|]; [|reflexivity]. simpl.
  destruct (getPage doc n); reflexivity.
Qed.

Lemma read_page_ok (d : Destination) (n : Z) (page : Page) :
  read_page doc d = Ok (n, page) <->
  dest_page d = Some n /\ getPage doc n = Ok page.
Proof.
  unfold read_page, getDestinationPageNumber.
  destruct (dest_page d) as [m|]; simpl.
  - destruct (getPage doc m) as [p|] eqn:Hp; simpl.
    + split; [intros [= <- <-]; auto | intros [[= <-] H]; congruence].
    + split; [discriminate | intros [[= <-] H]; congruence].
  - split; [discriminate | intros [H _]; discriminate].
Qed.

Lemma page_read_iff (d : Destination) :
  page_read doc d <-> exists r, read_page doc d = Ok r.
Proof.
  unfold page_read. split.
  - intros (n & page & H). exists (n, page). now apply read_page_ok.
  - intros [[n page] H]. exists n, page. now apply read_page_ok.
Qed.

Lemma next_page_ok (i : nat) (nd : Destination) (n : Z) :
  next_destination doc i = Ok nd -> dest_page nd = Some n ->
  next_page doc i = Ok n.
Proof.
  intros H1 H2. unfold next_page, getDestinationPageNumber.
  rewrite H1. simpl. now rewrite H2.
Qed.

Lemma scan_next_finds (l : list outline_item) (m : nat) (nd : Destination) :
  nth_error l m = Some (Dest nd) ->
  (forall j, j < m -> exists x, nth_error l j = Some (Nested x)) ->
  scan_next l = Ok nd.
Proof.
  revert l. induction m as [|m IH]; intros l Hm Hlt.
  - destruct l as [|it l]; simpl in Hm; [discriminate|].
    injection Hm as ->. reflexivity.
  - destruct (Hlt 0 ltac:(lia)) as [x Hx].
    destruct l as [|it l]; simpl in Hx; [discriminate|].
    injection Hx as ->. simpl. apply IH.
    + exact Hm.
    + intros j Hj. apply (Hlt (S j)). lia.
Qed.

Lemma next_destination_finds (i k : nat) (nd : Destination) :
  is_next_top_level doc i k nd -> next_destination doc i = Ok nd.
Proof.
  intros (Hik & Hk & Hbetween). unfold next_destination.
  apply scan_next_finds with (m := k - (i + 1)).
  - rewrite nth_error_skipn. replace (i + 1 + (k - (i + 1))) with k by lia.
    exact Hk.
  - intros j Hj. rewrite nth_error_skipn. apply Hbetween. lia.
Qed.

Lemma scan_next_none (l : list outline_item) :
  top_level l = [] -> scan_next l = Raise IndexError.
Proof.
  induction l as [|[d|x] l IH]; simpl; intros H;
    [reflexivity | discriminate | auto].
Qed.

End Steps.
(** ** The classification *)

Section Classification.

Lemma branches_taken_cases (t : str) :
  branches_taken t =
    (if is_candidate_details t then [CandidateDetails] else [])
    ++ (if is_resume_ok t then [ResumeOk] else [])
    ++ (if is_resume_error t then [ResumeError] else []).
Proof.
  unfold branches_taken. destruct (is_resume_ok t) eqn:Hok.
  - now rewrite (resume_ok_not_error _ Hok).
  - reflexivity.
Qed.

(** C8, as amended: [re.match] anchors the pattern at the start of the title
    only, so a title is a candidate-details title exactly when it starts
    with characters other than newlines followed by " Candidate Details";
    what comes after is not looked at. *)
Theorem candidate_details_prefix_match (t : str) :
  is_candidate_details t = true <->
  exists p q, t = p ++ lit " Candidate Details" ++ q /\ no_newline p = true.
Proof.
  exact (is_candidate_details_iff t).
Qed.

Lemma candidate_details_prefix_match_witness :
  is_candidate_details (lit "3. Candidate Details") = true.
Proof.
  apply (candidate_details_prefix_match (lit "3. Candidate Details")).
  exists (lit "3."), []. split; reflexivity.
Defined.

(** C8 as stated fails: a title with text after "Candidate Details" is
    classified as candidate details although it does not end with it. *)
Lemma candidate_details_not_suffix_match :
  ~ (is_candidate_details (lit "3. Candidate Details (copy)") = true <->
     endswith (lit "3. Candidate Details (copy)") (lit " Candidate Details") = true).
Proof.
  intros [H _]. specialize (H eq_refl). vm_compute in H. discriminate.
Qed.

Lemma categories_cases (t : str) :
  (In CandidateDetails (categories t) <-> is_candidate_details t = true) /\
  (In ResumeOk (categories t) <-> is_resume_ok t = true) /\
  (In ResumeError (categories t) <-> is_resume_error t = true) /\
  (In Unrecognized (categories t) <->
     is_candidate_details t = false /\ is_resume_ok t = false /\
     is_resume_error t = false) /\
  ~ (In ResumeOk (categories t) /\ In ResumeError (categories t)) /\
  NoDup (categories t) /\
  1 <= List.length (categories t) <= 2.
Proof.
  pose proof (@resume_ok_not_error t) as Hex.
  unfold categories. rewrite branches_taken_cases.
  destruct (is_candidate_details t), (is_resume_ok t), (is_resume_error t);
    try (specialize (Hex eq_refl); discriminate); simpl;
    repeat split; try lia; try (intuition congruence);
    repeat constructor; simpl; intuition congruence.
Qed.

Lemma candidate_branch_count (d : Destination) (page : Page) (st : state) :
  candidate_id (fst (candidate_branch d page st))
  = candidate_id st + (if is_candidate_details (title d) then 1 else 0).
Proof.
  rewrite candidate_branch_eq. destruct (is_candidate_details (title d)).
  - destruct (extract_details (extractText page)) as [[[[t f] l] e]|]; reflexivity.
  - simpl. lia.
Qed.

Lemma candidate_branch_stats (d : Destination) (page : Page) (st : state) :
  resume_count (fst (candidate_branch d page st)) = resume_count st /\
  resume_errors (fst (candidate_branch d page st)) = resume_errors st /\
  resume_files (fst (candidate_branch d page st)) = resume_files st.
Proof.
  rewrite candidate_branch_eq. destruct (is_candidate_details (title d));
    [|now repeat split].
  destruct (extract_details (extractText page)) as [[[[t f] l] e]|];
    now repeat split.
Qed.

Lemma resume_branch_frame (doc : Doc) (i : nat) (d : Destination) (n : Z)
    (st : state) :
  candidate_id (fst (resume_branch doc i d n st)) = candidate_id st /\
  csv_rows (fst (resume_branch doc i d n st)) = csv_rows st.
Proof.
  rewrite resume_branch_eq.
  destruct (is_resume_ok (title d)).
  - destruct (next_page doc i); [|now split].
    destruct (add_pages doc _); now split.
  - destruct (is_resume_error (title d)); now split.
Qed.

(** The resume counters after the resume branch: exactly one more for the
    pattern matched when the branch returns, at most one more when it
    raises. *)
Lemma resume_branch_counts (doc : Doc) (i : nat) (d : Destination) (n : Z)
    (st : state) :
  resume_count (fst (resume_branch doc i d n st))
  = resume_count st + (if is_resume_ok (title d) then 1 else 0) /\
  resume_errors (fst (resume_branch doc i d n st))
  = resume_errors st + (if is_resume_error (title d) then 1 else 0).
Proof.
  rewrite resume_branch_eq. destruct (is_resume_ok (title d)) eqn:Hok.
  - rewrite (resume_ok_not_error _ Hok).
    destruct (next_page doc i); [|simpl; lia].
    destruct (add_pages doc _); simpl; lia.
  - destruct (is_resume_error (title d)); simpl; lia.
Qed.

(** The three counters over one pass of the loop body. *)
Lemma loop_body_counts (doc : Doc) (i : nat) (d : Destination) (st : state) :
  (snd (loop_body doc i (Dest d) st) = Ok tt ->
   candidate_id (fst (loop_body doc i (Dest d) st))
   = candidate_id st + (if is_candidate_details (title d) then 1 else 0) /\
   resume_count (fst (loop_body doc i (Dest d) st))
   = resume_count st + (if is_resume_ok (title d) then 1 else 0) /\
   resume_errors (fst (loop_body doc i (Dest d) st))
   = resume_errors st + (if is_resume_error (title d) then 1 else 0)) /\
  candidate_id st <= candidate_id (fst (loop_body doc i (Dest d) st))
    <= candidate_id st + (if is_candidate_details (title d) then 1 else 0) /\
  resume_count st <= resume_count (fst (loop_body doc i (Dest d) st))
    <= resume_count st + (if is_resume_ok (title d) then 1 else 0) /\
  resume_errors st <= resume_errors (fst (loop_body doc i (Dest d) st))
    <= resume_errors st + (if is_resume_error (title d) then 1 else 0).
Proof.
  rewrite loop_body_eq.
  destruct (read_page doc d) as [[n page]|]; [|simpl; split; [discriminate | lia]].
  pose proof (candidate_branch_count d page st) as Hid.
  destruct (candidate_branch_stats d page st) as (Hc & He & _).
  destruct (candidate_branch d page st) as [st1 [[]|e]]; simpl in Hid, Hc, He.
  - destruct (resume_branch_frame doc i d n st1) as [Hf _].
    destruct (resume_branch_counts doc i d n st1) as [Hrc Hre].
    rewrite Hf, Hrc, Hre, Hid, Hc, He. split; [intros _|]; lia.
  - simpl. rewrite Hid, Hc, He. split; [discriminate | lia].
Qed.

(** C2, as amended: the resume branch and the resume-error branch exclude
    each other, and a title that takes no branch is unrecognized; the
    candidate-details test is made on its own and may hold together with
    either resume test, so that a title has one or two categories. In a
    pass of the loop body that returns, each category of the title adds
    one to its counter and no counter moves otherwise; in a pass that an
    exception stops no counter has moved by more than that. *)
Theorem categories_spec (t : str) :
  (In CandidateDetails (categories t) <-> is_candidate_details t = true) /\
  (In ResumeOk (categories t) <-> is_resume_ok t = true) /\
  (In ResumeError (categories t) <-> is_resume_error t = true) /\
  (In Unrecognized (categories t) <->
     is_candidate_details t = false /\ is_resume_ok t = false /\
     is_resume_error t = false) /\
  ~ (In ResumeOk (categories t) /\ In ResumeError (categories t)) /\
  NoDup (categories t) /\
  1 <= List.length (categories t) <= 2 /\
  (forall (doc : Doc) (i : nat) (p : option Z) (st st' : state),
     loop_body doc i (Dest (mkDest t p)) st = (st', Ok tt) ->
     candidate_id st'
     = candidate_id st + (if is_candidate_details t then 1 else 0) /\
     resume_count st' = resume_count st + (if is_resume_ok t then 1 else 0) /\
     resume_errors st'
     = resume_errors st + (if is_resume_error t then 1 else 0)) /\
  (forall (doc : Doc) (i : nat) (p : option Z) (st st' : state) (e : exn),
     loop_body doc i (Dest (mkDest t p)) st = (st', Raise e) ->
     candidate_id st <= candidate_id st'
       <= candidate_id st + (if is_candidate_details t then 1 else 0) /\
     resume_count st <= resume_count st'
       <= resume_count st + (if is_resume_ok t then 1 else 0) /\
     resume_errors st <= resume_errors st'
       <= resume_errors st + (if is_resume_error t then 1 else 0)).
Proof.
  destruct (categories_cases t) as (H1 & H2 & H3 & H4 & H5 & H6 & H7).
  repeat (split; [assumption|]). split.
  - intros doc i p st st' Hb.
    pose proof (proj1 (loop_body_counts doc i (mkDest t p) st)) as H.
    rewrite Hb in H. exact (H eq_refl).
  - intros doc i p st st' e Hb.
    pose proof (proj2 (loop_body_counts doc i (mkDest t p) st)) as H.
    rewrite Hb in H. exact H.
Qed.

(** C2 as stated fails: one title takes the candidate-details branch and
    the resume branch, and the bookmark is counted as a candidate and as a
    resume. *)
Lemma title_in_two_categories :
  categories (lit "7. Candidate Details.pdf") = [CandidateDetails; ResumeOk] /\
  ~ (exists c, categories (lit "7. Candidate Details.pdf") = [c]) /\
  candidate_id (fst (run [doc_two_branches])) = 1 /\
  resume_count (fst (run [doc_two_branches])) = 1 /\
  output_ids (fst (run [doc_two_branches])) = [1] /\
  map fst (resume_files (fst (run [doc_two_branches]))) = [resume_path 1].
Proof.
  repeat split; try (vm_compute; reflexivity).
  intros [c H]. vm_compute in H. discriminate.
Qed.

Lemma categories_spec_witness :
  candidate_id (fst (loop_body doc_two_branches 0
                       (Dest (dest_at (lit "7. Candidate Details.pdf") 0))
                       initial_state)) = 0 + 1 /\
  resume_count (fst (loop_body doc_two_branches 0
                       (Dest (dest_at (lit "7. Candidate Details.pdf") 0))
                       initial_state)) = 0 + 1 /\
  resume_errors (fst (loop_body doc_two_branches 0
                        (Dest (dest_at (lit "7. Candidate Details.pdf") 0))
                        initial_state)) = 0 + 0.
Proof.
  destruct (categories_spec (lit "7. Candidate Details.pdf"))
    as (_ & _ & _ & _ & _ & _ & _ & Hok & _).
  apply (Hok doc_two_branches 0 (Some 0%Z) initial_state). reflexivity.
Defined.

End Classification.

(** ** Resume segments *)

Section Segments.

Variable doc : Doc.

Lemma candidate_branch_files (d : Destination) (page : Page) (st : state) :
  resume_files (fst (candidate_branch d page st)) = resume_files st.
Proof.
  exact (proj2 (proj2 (candidate_branch_stats d page st))).
Qed.



(** The name of a file tells the candidate id, and the file written by the
    resume branch is the last of the files. *)
Lemma resume_branch_file (i : nat) (d : Destination) (page_num : Z) (st : state) :
  resume_files (fst (resume_branch doc i d page_num st)) = resume_files st \/
  (is_resume_ok (title d) = true /\
   snd (resume_branch doc i d page_num st) = Ok tt /\
   exists seg,
     resume_files (fst (resume_branch doc i d page_num st))
     = resume_files st ++ [(resume_path (candidate_id st), seg)]).
Proof.
  rewrite resume_branch_eq.
  destruct (is_resume_ok (title d));
    [|destruct (is_resume_error (title d)); now left].
  destruct (next_page doc i); [|now left].
  destruct (add_pages doc _) as [seg|]; [|now left].
  right. split; [reflexivity|]. split; [reflexivity|]. now exists seg.
Qed.

Lemma resume_branch_writes (i : nat) (d : Destination) (page_num : Z) (st : state) :
  is_resume_ok (title d) = true ->
  snd (resume_branch doc i d page_num st) = Ok tt ->
  exists seg,
    resume_files (fst (resume_branch doc i d page_num st))
    = resume_files st ++ [(resume_path (candidate_id st), seg)].
Proof.
  intros Hok. rewrite resume_branch_eq, Hok.
  destruct (next_page doc i); [|discriminate].
  destruct (add_pages doc _) as [seg|]; [|discriminate].
  intros _. now exists seg.
Qed.

(** C6: the resume branch names the file by the counter it finds, in the
    form [output/resumes/<id>.pdf] from which the id can be read back, and
    leaves the counter and the rows alone, whatever came before; over the
    whole pass the name carries the counter as the pass leaves it. *)
Theorem resume_bound_to_current_id (i : nat) (d : Destination) (page_num : Z)
    (st : state) :
  candidate_id (fst (resume_branch doc i d page_num st)) = candidate_id st /\
  csv_rows (fst (resume_branch doc i d page_num st)) = csv_rows st /\
  (resume_files (fst (resume_branch doc i d page_num st)) = resume_files st \/
   exists seg,
     resume_files (fst (resume_branch doc i d page_num st))
     = resume_files st
       ++ [(lit "output/resumes/" ++ str_of_nat (candidate_id st) ++ lit ".pdf",
            seg)]) /\
  (is_resume_ok (title d) = true ->
   snd (resume_branch doc i d page_num st) = Ok tt ->
   exists seg,
     resume_files (fst (resume_branch doc i d page_num st))
     = resume_files st
       ++ [(lit "output/resumes/" ++ str_of_nat (candidate_id st) ++ lit ".pdf",
            seg)]) /\
  (forall k, lit "output/resumes/" ++ str_of_nat k ++ lit ".pdf"
             = lit "output/resumes/" ++ str_of_nat (candidate_id st) ++ lit ".pdf" ->
             k = candidate_id st) /\
  (forall st', is_resume_ok (title d) = true ->
     loop_body doc i (Dest d) st = (st', Ok tt) ->
     candidate_id st'
     = candidate_id st + (if is_candidate_details (title d) then 1 else 0) /\
     exists seg,
       resume_files st'
       = resume_files st
         ++ [(lit "output/resumes/" ++ str_of_nat (candidate_id st') ++ lit ".pdf",
              seg)]) /\
  (is_candidate_details (title d) = false ->
   candidate_id (fst (loop_body doc i (Dest d) st)) = candidate_id st).
Proof.
  destruct (resume_branch_frame doc i d page_num st) as [Hid Hrows].
  split; [exact Hid|]. split; [exact Hrows|]. split; [|split; [|split; [|split]]].
  - destruct (resume_branch_file i d page_num st) as [H | (_ & _ & seg & H)];
      [now left | right; now exists seg].
  - intros Hok Hret. exact (resume_branch_writes i d page_num st Hok Hret).
  - intros k Hk. exact (@resume_path_inj k (candidate_id st) Hk).
  - intros st' Hok. rewrite loop_body_eq.
    destruct (read_page doc d) as [[n page]|]; [|discriminate].
    pose proof (candidate_branch_count d page st) as Hc.
    pose proof (candidate_branch_files d page st) as Hf.
    destruct (candidate_branch d page st) as [st1 [[]|e]]; simpl in Hc, Hf;
      [|discriminate].
    intros Hb.
    pose proof (proj1 (resume_branch_frame doc i d n st1)) as Hid1.
    pose proof (resume_branch_writes i d n st1 Hok) as Hw.
    rewrite Hb in Hid1, Hw. simpl in Hid1, Hw.
    destruct (Hw eq_refl) as [seg Hseg].
    split; [lia|]. exists seg. rewrite Hseg, Hf, Hid1. reflexivity.
  - intros Hcd. rewrite loop_body_eq.
    destruct (read_page doc d) as [[n page]|]; [|reflexivity].
    rewrite candidate_branch_eq, Hcd.
    exact (proj1 (resume_branch_frame doc i d n st)).
Qed.

(** When no top-level bookmark follows a resume bookmark, the scan runs off
    the end of the outline. *)
Lemma resume_without_successor (i : nat) (d : Destination) (n : Z) (page : Page)
    (st st1 : state) :
  is_resume_ok (title d) = true ->
  top_level (skipn (i + 1) (outlines doc)) = [] ->
  read_page doc d = Ok (n, page) ->
  candidate_branch d page st = (st1, Ok tt) ->
  loop_body doc i (Dest d) st = (incr_resume_count st1, Raise IndexError).
Proof.
  intros Hok Hlast Hpage Hcand.
  rewrite loop_body_eq, Hpage, Hcand, resume_branch_eq, Hok.
  unfold next_page, next_destination. now rewrite (scan_next_none _ Hlast).
Qed.

End Segments.



Lemma resume_bound_to_current_id_witness :
  exists seg,
    resume_files (fst (resume_branch doc_scenario 1 (dest_at (lit "resume.pdf") 10)
                                     10%Z (mkState 1 0 0 [] [])))
    = [] ++ [(lit "output/resumes/" ++ str_of_nat 1 ++ lit ".pdf", seg)].
Proof.
  apply (resume_bound_to_current_id doc_scenario 1 (dest_at (lit "resume.pdf") 10)
           10%Z (mkState 1 0 0 [] [])); reflexivity.
Defined.

(** C1 fails on the code: with a resume as the last top-level bookmark the
    run stops with [IndexError] after counting the resume, and no file is
    written for it. *)
Theorem resume_last_bookmark_raises :
  snd (run [doc_resume_last]) = Raise IndexError /\
  resume_count (fst (run [doc_resume_last])) = 1 /\
  resume_files (fst (run [doc_resume_last])) = [].
Proof.
  vm_compute. auto.
Qed.

(** ** The candidate counter *)

Section Counter.

Lemma counted_weaken (st : state) : counted st -> counted_upto st.
Proof. intros [H1 H2]. split; [exact H1 | lia]. Qed.

Lemma count_details_cons (it : outline_item) (items : list outline_item) :
  count_details (it :: items) = details_in it + count_details items.
Proof.
  unfold count_details. destruct it as [d|l]; simpl; [|reflexivity].
  destruct (is_candidate_details (title d)); reflexivity.
Qed.

Lemma candidate_branch_counted (d : Destination) (page : Page) (st : state) :
  counted st ->
  match candidate_branch d page st with
  | (st', Ok _) =>
      counted st' /\ candidate_id st' = candidate_id st + details_in (Dest d)
  | (st', Raise _) => counted_upto st'
  end.
Proof.
  intros [Hids Hlen]. rewrite candidate_branch_eq. simpl.
  destruct (is_candidate_details (title d)).
  - destruct (extract_details (extractText page)) as [[[[t f] l] e]|e].
    + unfold counted, output_ids in *. simpl.
      rewrite map_app, length_app, Hids. simpl.
      rewrite <- Hlen, !Nat.add_1_r, seq_S. simpl. auto.
    + unfold counted_upto, output_ids in *. simpl. split; [exact Hids | lia].
  - split; [now split | lia].
Qed.

Lemma loop_body_counted (doc : Doc) (i : nat) (it : outline_item) (st : state) :
  counted st ->
  match loop_body doc i it st with
  | (st', Ok _) => counted st' /\ candidate_id st' = candidate_id st + details_in it
  | (st', Raise _) => counted_upto st'
  end.
Proof.
  intros Hst. destruct it as [d|l].
  - rewrite loop_body_eq.
    destruct (read_page doc d) as [[n page]|e];
      [|now apply counted_weaken].
    pose proof (candidate_branch_counted d page Hst) as Hc.
    destruct (candidate_branch d page st) as [st1 [[]|e]]; [|exact Hc].
    destruct Hc as [[Hids Hlen] Hid].
    destruct (resume_branch_frame doc i d n st1) as [Hf1 Hf2].
    destruct (resume_branch doc i d n st1) as [st2 [[]|e]];
      simpl in Hf1, Hf2; unfold counted, counted_upto, output_ids in *;
      rewrite Hf1, Hf2; repeat split; try assumption; lia.
  - simpl. unfold ret. split; [exact Hst | lia].
Qed.

Lemma outline_loop_counted (doc : Doc) (items : list outline_item) :
  forall (i : nat) (st : state),
  counted st ->
  match outline_loop doc i items st with
  | (st', Ok _) => counted st' /\ candidate_id st' = candidate_id st + count_details items
  | (st', Raise _) => counted_upto st'
  end.
Proof.
  induction items as [|it items IH]; intros i st Hst.
  - simpl. unfold ret. split; [exact Hst | unfold count_details; simpl; lia].
  - simpl. unfold bind.
    pose proof (loop_body_counted doc i it Hst) as Hb.
    destruct (loop_body doc i it st) as [st1 [[]|e]]; [|exact Hb].
    destruct Hb as [Hst1 Hid1].
    pose proof (IH (S i) st1 Hst1) as Hl.
    destruct (outline_loop doc (S i) items st1) as [st2 [[]|e]]; [|exact Hl].
    destruct Hl as [Hst2 Hid2]. split; [exact Hst2|].
    rewrite count_details_cons. lia.
Qed.

Lemma process_docs_counted (docs : list Doc) :
  forall st : state,
  counted st ->
  match process_docs docs st with
  | (st', Ok _) => counted st' /\ candidate_id st' = candidate_id st + total_details docs
  | (st', Raise _) => counted_upto st'
  end.
Proof.
  induction docs as [|doc docs IH]; intros st Hst.
  - simpl. unfold ret. split; [exact Hst | unfold total_details; simpl; lia].
  - simpl. unfold bind, process_doc.
    pose proof (outline_loop_counted doc (outlines doc) 0 Hst) as Hd.
    destruct (outline_loop doc 0 (outlines doc) st) as [st1 [[]|e]]; [|exact Hd].
    destruct Hd as [Hst1 Hid1].
    pose proof (IH st1 Hst1) as Hr.
    destruct (process_docs docs st1) as [st2 [[]|e]]; [|exact Hr].
    destruct Hr as [Hst2 Hid2]. split; [exact Hst2|].
    unfold total_details in *. simpl. lia.
Qed.

Lemma initial_counted : counted initial_state.
Proof. split; reflexivity. Qed.

(** C3, as amended: in every run, finished or stopped by an exception, the
    ids of the rows written are 1, 2, ..., M without gap or repeat, and the
    counter, which starts at 0, is M or M + 1; when the run finishes, M is
    the number of candidate-details bookmarks at the top level of the
    outlines. *)
Theorem candidate_ids_contiguous (docs : list Doc) :
  candidate_id initial_state = 0 /\
  output_ids (fst (run docs)) = seq 1 (List.length (csv_rows (fst (run docs)))) /\
  List.length (csv_rows (fst (run docs))) <= candidate_id (fst (run docs))
    <= List.length (csv_rows (fst (run docs))) + 1 /\
  (snd (run docs) = Ok tt ->
   output_ids (fst (run docs)) = seq 1 (total_details docs) /\
   candidate_id (fst (run docs)) = total_details docs).
Proof.
  unfold run. pose proof (process_docs_counted docs initial_counted) as H.
  destruct (process_docs docs initial_state) as [st [[]|e]]; simpl in *.
  - destruct H as [[Hids Hlen] Hid]. split; [reflexivity|].
    split; [exact Hids|]. split; [lia|]. intros _.
    split; [|exact Hid]. rewrite Hids, Hlen, Hid. reflexivity.
  - destruct H as [Hids Hlen]. split; [reflexivity|].
    split; [exact Hids|]. split; [exact Hlen|]. discriminate.
Qed.

Lemma candidate_ids_contiguous_witness :
  output_ids (fst (run [doc_scenario; doc_orphan])) = seq 1 2 /\
  candidate_id (fst (run [doc_scenario; doc_orphan])) = 2.
Proof.
  apply (candidate_ids_contiguous [doc_scenario; doc_orphan]). reflexivity.
Defined.

(** C3 as stated fails on a run that an exception stops: the details
    bookmark was met and counted, and no row carries its id. *)
Lemma candidate_ids_missing_row :
  count_details (outlines doc_bad_email) = 2 /\
  candidate_id (fst (run [doc_bad_email])) = 1 /\
  output_ids (fst (run [doc_bad_email])) = [] /\
  output_ids (fst (run [doc_bad_email])) <> seq 1 1.
Proof.
  vm_compute. repeat split; discriminate.
Qed.

End Counter.

(** ** The details page *)

Section Details.

Lemma in_titles_In (s : str) : in_titles s = true <-> In s TITLES.
Proof.
  unfold in_titles. rewrite existsb_exists. split.
  - intros (x & Hx & E). apply str_eqb_eq in E. now subst.
  - intros H. exists s. split; [exact H | now apply str_eqb_eq].
Qed.

Lemma in_titles_not_In (s : str) : ~ In s TITLES -> in_titles s = false.
Proof.
  intros H. destruct (in_titles s) eqn:E; [|reflexivity].
  apply in_titles_In in E. contradiction.
Qed.

Lemma py_last_last (l : list str) (a : str) :
  l <> [] -> py_last l = Ok (last l a).
Proof.
  intros H. destruct (exists_last H) as (l' & x & ->).
  unfold py_last. rewrite rev_app_distr, last_last. reflexivity.
Qed.

Lemma split_on_head (sep : char) (s : str) :
  py_index (split_on sep s) 0 = Ok (hd [] (split_on sep s)).
Proof.
  destruct s as [|c s]; simpl; [reflexivity|].
  destruct (N.eqb c sep); [reflexivity|].
  destruct (split_on sep s); reflexivity.
Qed.

Lemma list_index_absent (x : str) (l : list str) :
  ~ In x l -> list_index x l = Raise ValueError.
Proof.
  induction l as [|y l IH]; simpl; intros H; [reflexivity|].
  destruct (str_eqb y x) eqn:E.
  - apply str_eqb_eq in E. tauto.
  - rewrite IH; tauto.
Qed.

Lemma extract_details_eq (text : str) :
  extract_details text =
    match parse_fullname (split_ws (strip (hd [] (split_on nl text)))) with
    | Ok name =>
        match parse_email (split_on nl text) with
        | Ok c_email => Ok (name, c_email)
        | Raise e => Raise e
        end
    | Raise e => Raise e
    end.
Proof.
  unfold extract_details. rewrite split_on_head. simpl.
  destruct (parse_fullname _); reflexivity.
Qed.

(** C7: with a title in front, the title is the first token and the first
    name the second; without, the title is empty and the first name is the
    first token; the last name is the last token either way, and these are
    the fields of the row written for the page. *)
Theorem name_line_fields (toks : list str) (t1 : str) :
  nth_error toks 0 = Some t1 ->
  (In t1 TITLES ->
   forall t2, nth_error toks 1 = Some t2 ->
   parse_fullname toks = Ok (t1, t2, last toks [])) /\
  (~ In t1 TITLES -> parse_fullname toks = Ok ([], t1, last toks [])) /\
  (forall (d : Destination) (page : Page) (st : state) (t f l e : str),
   is_candidate_details (title d) = true ->
   toks = split_ws (strip (hd [] (split_on nl (extractText page)))) ->
   parse_fullname toks = Ok (t, f, l) ->
   parse_email (split_on nl (extractText page)) = Ok e ->
   candidate_branch d page st
   = (add_row (mkRow (candidate_id st + 1) t f l e) (incr_candidate_id st), Ok tt)).
Proof.
  intros H0.
  assert (Hne : toks <> []) by (intros ->; discriminate).
  assert (Hp : parse_fullname toks =
               if in_titles t1
               then match nth_error toks 1 with
                    | Some t2 => Ok (t1, t2, last toks [])
                    | None => Raise IndexError
                    end
               else Ok ([], t1, last toks [])).
  { unfold parse_fullname, py_index. rewrite H0. cbn [obind].
    destruct (in_titles t1).
    - destruct (nth_error toks 1); cbn [obind]; [|reflexivity].
      now rewrite (@py_last_last toks [] Hne).
    - cbn [obind]. now rewrite (@py_last_last toks [] Hne). }
  split; [|split].
  - intros Hin t2 H1. apply in_titles_In in Hin. now rewrite Hp, Hin, H1.
  - intros Hnot. now rewrite Hp, (@in_titles_not_In t1 Hnot).
  - intros d page st t f l e Hcd Htoks Hname Hemail.
    now rewrite candidate_branch_eq, Hcd, extract_details_eq, <- Htoks, Hname, Hemail.
Qed.

Lemma name_line_fields_witness :
  parse_fullname (split_ws (strip (lit "Mr John Q Public")))
  = Ok (lit "Mr", lit "John", lit "Public").
Proof.
  apply (@name_line_fields (split_ws (strip (lit "Mr John Q Public"))) (lit "Mr")
           eq_refl).
  - simpl. auto.
  - reflexivity.
Defined.

(** C4, as amended: nothing catches the exception of a details page whose
    name line has no token, or a title and nothing else, or whose lines do
    not include the email label: the counter has been incremented, no row
    is written, and the bookmarks after it are not processed. A name line
    of one token that is not a title raises nothing. *)
Theorem bad_details_stop_run (doc : Doc) (i : nat) (d : Destination)
    (rest : list outline_item) (st : state) (n : Z) (page : Page) :
  dest_page d = Some n ->
  getPage doc n = Ok page ->
  is_candidate_details (title d) = true ->
  let details := split_on nl (extractText page) in
  let toks := split_ws (strip (hd [] details)) in
  (toks = [] \/ (exists t, toks = [t] /\ In t TITLES) \/
   ~ In (lit "Email Address:") details ->
   exists e,
     outline_loop doc i (Dest d :: rest) st = (incr_candidate_id st, Raise e)) /\
  (forall t, toks = [t] -> ~ In t TITLES -> parse_fullname toks = Ok ([], t, t)).
Proof.
  intros Hn Hpage Hcd details toks. split.
  - intros Hbad.
    assert (exists e, extract_details (extractText page) = Raise e) as [e He].
    { rewrite extract_details_eq. fold details. fold toks.
      destruct Hbad as [Htoks | [(t & Htoks & Hin) | Hmail]].
      - rewrite Htoks. now exists IndexError.
      - rewrite Htoks. apply in_titles_In in Hin.
        unfold parse_fullname. simpl. rewrite Hin. now exists IndexError.
      - destruct (parse_fullname toks); [|eauto].
        unfold parse_email. rewrite (@list_index_absent _ _ Hmail). simpl. eauto. }
    exists e. cbn [outline_loop]. unfold bind.
    rewrite loop_body_eq, (proj2 (read_page_ok doc d _ _) (conj Hn Hpage)).
    now rewrite candidate_branch_eq, Hcd, He.
  - intros t Htoks Hnot. rewrite Htoks. unfold parse_fullname. simpl.
    now rewrite (@in_titles_not_In t Hnot).
Qed.

Lemma bad_details_stop_run_witness :
  exists e,
    outline_loop doc_bad_email 0 (outlines doc_bad_email) initial_state
    = (incr_candidate_id initial_state, Raise e).
Proof.
  apply (@bad_details_stop_run doc_bad_email 0 (dest_at (lit "1. Candidate Details") 0)
           [Dest (dest_at (lit "2. Candidate Details") 1)] initial_state
           0%Z (mkPage 0 (lit "Jane Doe")) eq_refl eq_refl eq_refl).
  right. right. vm_compute. intros [H|H]; [discriminate | exact H].
Defined.

(** C4 as stated fails: the first details page has no email label, the run
    stops there with [ValueError], and the second candidate, whose page is
    well formed, gets no row. *)
Lemma bad_details_abort_batch :
  snd (run [doc_bad_email]) = Raise ValueError /\
  csv_rows (fst (run [doc_bad_email])) = [] /\
  extract_details details_text
  = Ok (lit "Mr", lit "John", lit "Public", lit "john@example.org").
Proof.
  vm_compute. auto.
Qed.

End Details.

(** ** The sequences of rows and files only grow *)

Section Extends.

Lemma extends_refl (st : state) : extends st st.
Proof.
  repeat split; try lia; exists []; now rewrite app_nil_r.
Qed.

Lemma extends_trans (st1 st2 st3 : state) :
  extends st1 st2 -> extends st2 st3 -> extends st1 st3.
Proof.
  intros ([r1 R1] & [f1 G1] & ? & ? & ?) ([r2 R2] & [f2 G2] & ? & ? & ?).
  repeat split; try lia.
  - exists (r1 ++ r2). now rewrite R2, R1, app_assoc.
  - exists (f1 ++ f2). now rewrite G2, G1, app_assoc.
Qed.

Lemma candidate_branch_extends (d : Destination) (page : Page) (st : state) :
  extends st (fst (candidate_branch d page st)).
Proof.
  rewrite candidate_branch_eq. destruct (is_candidate_details (title d));
    [|apply extends_refl].
  destruct (extract_details (extractText page)) as [[[[t f] l] e]|]; simpl;
    repeat split; simpl; try lia;
    try (exists []; now rewrite app_nil_r); eexists; reflexivity.
Qed.

Lemma resume_branch_extends (doc : Doc) (i : nat) (d : Destination) (n : Z)
    (st : state) :
  extends st (fst (resume_branch doc i d n st)).
Proof.
  rewrite resume_branch_eq.
  destruct (is_resume_ok (title d)).
  - destruct (next_page doc i) as [nd|];
      [destruct (add_pages doc _) as [seg|]|]; simpl;
      repeat split; simpl; try lia;
      try (exists []; now rewrite app_nil_r); eexists; reflexivity.
  - destruct (is_resume_error (title d)); [|apply extends_refl].
    repeat split; simpl; try lia; exists []; now rewrite app_nil_r.
Qed.

Lemma loop_body_extends (doc : Doc) (i : nat) (it : outline_item) (st : state) :
  extends st (fst (loop_body doc i it st)).
Proof.
  destruct it as [d|l]; [|apply extends_refl].
  rewrite loop_body_eq.
  destruct (read_page doc d) as [[n page]|]; [|apply extends_refl].
  pose proof (candidate_branch_extends d page st) as Hc.
  destruct (candidate_branch d page st) as [st1 [[]|e]]; [|exact Hc].
  exact (extends_trans Hc (resume_branch_extends doc i d n st1)).
Qed.

Lemma outline_loop_extends (doc : Doc) (items : list outline_item) :
  forall (i : nat) (st : state), extends st (fst (outline_loop doc i items st)).
Proof.
  induction items as [|it items IH]; intros i st; [apply extends_refl|].
  cbn [outline_loop]. unfold bind.
  pose proof (loop_body_extends doc i it st) as Hb.
  destruct (loop_body doc i it st) as [st1 [[]|e]]; [|exact Hb].
  exact (extends_trans Hb (IH (S i) st1)).
Qed.

Lemma process_docs_extends (docs : list Doc) (st : state) :
  extends st (fst (process_docs docs st)).
Proof.
  revert st. induction docs as [|doc docs IH]; intros st; [apply extends_refl|].
  cbn [process_docs]. unfold bind, process_doc.
  pose proof (outline_loop_extends doc (outlines doc) 0 st) as Hd.
  destruct (outline_loop doc 0 (outlines doc) st) as [st1 [[]|e]]; [|exact Hd].
  exact (extends_trans Hd (IH st1)).
Qed.

End Extends.

(** ** A resume before any details page *)

Section Orphan.

Variable doc : Doc.







End Orphan.


(** ** Disjoint segments *)

Section Disjoint.

Variable doc : Doc.

Lemma sorted_app (R : nat -> nat -> Prop) (l1 l2 : list nat) :
  StronglySorted R l1 -> StronglySorted R l2 ->
  (forall x y, In x l1 -> In y l2 -> R x y) ->
  StronglySorted R (l1 ++ l2).
Proof.
  induction l1 as [|a l1 IH]; simpl; intros H1 H2 H12; [exact H2|].
  apply StronglySorted_inv in H1 as [H1 Ha]. constructor.
  - apply IH; auto.
  - apply Forall_app. split; [exact Ha|].
    apply Forall_forall. intros y Hy. apply H12; auto.
Qed.

Lemma sorted_app_inv (R : nat -> nat -> Prop) (l1 l2 : list nat) :
  StronglySorted R (l1 ++ l2) ->
  StronglySorted R l1 /\ StronglySorted R l2 /\
  forall x y, In x l1 -> In y l2 -> R x y.
Proof.
  induction l1 as [|a l1 IH]; simpl; intros H.
  - split; [constructor|]. split; [exact H | contradiction].
  - apply StronglySorted_inv in H as [H Ha]. destruct (IH H) as (H1 & H2 & H12).
    apply Forall_app in Ha as [Ha1 Ha2].
    split; [now constructor|]. split; [exact H2|]. intros x y [<-|Hx] Hy.
    + rewrite Forall_forall in Ha2. now apply Ha2.
    + now apply H12.
Qed.

Lemma sorted_lt_seq (a n : nat) : StronglySorted lt (seq a n).
Proof.
  revert a. induction n as [|n IH]; intros a; simpl; constructor.
  - apply IH.
  - apply Forall_forall. intros y Hy. apply in_seq in Hy. lia.
Qed.

(** Lists that increase when put end to end have no element in common. *)
Lemma sorted_concat_disjoint (ls : list (list nat)) :
  StronglySorted lt (concat ls) ->
  forall a b la lb x y, a < b ->
  nth_error ls a = Some la -> nth_error ls b = Some lb ->
  In x la -> In y lb -> x < y.
Proof.
  induction ls as [|l ls IH]; intros Hs a b la lb x y Hab Ha Hb Hx Hy.
  - destruct a; discriminate.
  - simpl in Hs. apply sorted_app_inv in Hs as (_ & Hs & Hl).
    destruct b as [|b]; [lia|]. simpl in Hb. destruct a as [|a]; simpl in Ha.
    + injection Ha as ->. apply Hl; [exact Hx|].
      apply in_concat. exists lb. split; [|exact Hy].
      now apply nth_error_In with b.
    + apply (IH Hs a b la lb); auto. lia.
Qed.

Lemma scan_next_head (l : list outline_item) (nd : Destination) :
  scan_next l = Ok nd -> exists tl, top_level l = nd :: tl.
Proof.
  induction l as [|[d|x] l IH]; simpl; intros H.
  - discriminate.
  - injection H as ->. now exists (top_level l).
  - auto.
Qed.

Lemma skipn_tail (A : Type) (i : nat) (l r : list A) (x : A) :
  skipn i l = x :: r -> skipn (i + 1) l = r.
Proof.
  intros H. now rewrite Nat.add_comm, <- skipn_skipn, H.
Qed.

Lemma next_page_head (i : nat) (rest : list outline_item) (e : Z) :
  skipn (i + 1) (outlines doc) = rest ->
  next_page doc i = Ok e ->
  exists nd tl, top_level rest = nd :: tl /\ dest_page nd = Some e.
Proof.
  intros Hrest. unfold next_page, next_destination. rewrite Hrest.
  destruct (scan_next rest) as [nd|] eqn:Hnext; [|discriminate]. simpl.
  destruct (scan_next_head _ Hnext) as [tl Htl].
  unfold getDestinationPageNumber.
  destruct (dest_page nd) as [m|] eqn:Hm; [|discriminate].
  intros [= <-]. now exists nd, tl.
Qed.

(** A pass of the loop body leaves the files as they are, or returns after
    writing one file more: the pages between the page numbers of the
    bookmark and of the next top-level bookmark, under the name of the
    counter that the pass leaves. *)
Lemma loop_body_file (i : nat) (d : Destination) (st : state) :
  resume_files (fst (loop_body doc i (Dest d) st)) = resume_files st \/
  exists n e seg,
    is_resume_ok (title d) = true /\
    dest_page d = Some n /\
    next_page doc i = Ok e /\
    add_pages doc (range n e) = Ok seg /\
    snd (loop_body doc i (Dest d) st) = Ok tt /\
    resume_files (fst (loop_body doc i (Dest d) st))
    = resume_files st
      ++ [(resume_path (candidate_id (fst (loop_body doc i (Dest d) st))), seg)].
Proof.
  rewrite loop_body_eq.
  destruct (read_page doc d) as [[n page]|] eqn:Hread; [|now left].
  apply read_page_ok in Hread as [Hn _].
  pose proof (candidate_branch_files d page st) as Hfiles.
  destruct (candidate_branch d page st) as [st1 [[]|e]]; simpl in Hfiles;
    [|now left].
  rewrite resume_branch_eq.
  destruct (is_resume_ok (title d));
    [|destruct (is_resume_error (title d)); now left].
  destruct (next_page doc i) as [e|]; [|now left].
  destruct (add_pages doc _) as [seg|] eqn:Hseg; [|now left].
  right. exists n, e, seg. simpl. rewrite Hfiles. now repeat split.
Qed.

Lemma loop_body_files_item (i : nat) (it : outline_item) (st : state) :
  resume_files (fst (loop_body doc i it st)) = resume_files st \/
  (snd (loop_body doc i it st) = Ok tt /\
   exists seg,
     resume_files (fst (loop_body doc i it st))
     = resume_files st
       ++ [(resume_path (candidate_id (fst (loop_body doc i it st))), seg)]).
Proof.
  destruct it as [d|l]; [|now left].
  destruct (loop_body_file i d st) as [H | (n & e & seg & _ & _ & _ & _ & Hok & H)];
    [now left | right; split; [exact Hok | now exists seg]].
Qed.

Lemma segments_inv_same (ns ns' : list nat) (st st' : state) :
  resume_files st' = resume_files st ->
  (forall n, In n ns' -> In n ns) ->
  segments_inv doc ns st -> segments_inv doc ns' st'.
Proof.
  unfold segments_inv, segment_indices, pages_from. intros -> Hsub (Hs & Hb & Hp).
  split; [exact Hs|]. split; [|exact Hp]. intros j n Hj Hn. apply (Hb j n Hj), Hsub, Hn.
Qed.

Lemma resume_bounds_cons (d : Destination) (ds : list Destination) :
  resume_bounds (d :: ds)
  = match ds with
    | nd :: _ => if is_resume_ok (title d) then [dest_page d; dest_page nd] else []
    | [] => []
    end ++ resume_bounds ds.
Proof. reflexivity. Qed.

(** One pass more: the pages of a new file start at the bookmark's page,
    above all pages written before, and end below the bounds to come. *)
Lemma loop_body_inv (i : nat) (it : outline_item) (rest : list outline_item)
    (st : state) (ns : list nat) :
  skipn (i + 1) (outlines doc) = rest ->
  resume_bounds (top_level (it :: rest)) = map (fun n => Some (Z.of_nat n)) ns ->
  StronglySorted le ns ->
  segments_inv doc ns st ->
  exists ns',
    resume_bounds (top_level rest) = map (fun n => Some (Z.of_nat n)) ns' /\
    StronglySorted le ns' /\
    segments_inv doc ns' (fst (loop_body doc i it st)).
Proof.
  intros Hrest Hbounds Hsorted Hinv. destruct it as [d|l];
    [|exists ns; split; [exact Hbounds | split; [exact Hsorted | exact Hinv]]].
  simpl top_level in Hbounds. rewrite resume_bounds_cons in Hbounds.
  symmetry in Hbounds. apply map_eq_app in Hbounds as (n1 & n2 & -> & Hn1 & Hn2).
  apply sorted_app_inv in Hsorted as (Hs1 & Hs2 & H12).
  exists n2. split; [now symmetry|]. split; [exact Hs2|].
  destruct (loop_body_file i d st)
    as [Hsame | (n & e & seg & Hok & Hn & He & Hseg & _ & Hfiles)].
  - apply (@segments_inv_same (n1 ++ n2) n2 st _ Hsame); [|exact Hinv].
    intros x Hx. apply in_or_app. now right.
  - destruct (next_page_head _ Hrest He) as (nd & tl & Htop & Hnd).
    rewrite Htop, Hok, Hn, Hnd in Hn1.
    destruct n1 as [|a [|b [|c n1]]]; simpl in Hn1; try discriminate.
    injection Hn1 as Ha Hb.
    assert (Hab : a <= b).
    { apply StronglySorted_inv in Hs1 as [_ Hs1]. now apply Forall_inv in Hs1. }
    assert (Hidx : map page_index seg = seq a (b - a)).
    { subst n e.
      rewrite (@add_pages_indices doc (Z.of_nat a) (Z.of_nat b) seg
                 (Nat2Z.is_nonneg a) Hseg).
      f_equal; lia. }
    destruct Hinv as (Hs & Hb' & Hp).
    assert (Hcat : concat (segment_indices (fst (loop_body doc i (Dest d) st)))
                   = concat (segment_indices st) ++ seq a (b - a)).
    { unfold segment_indices. rewrite Hfiles, map_app, concat_app. simpl.
      now rewrite app_nil_r, Hidx. }
    split; [|split].
    + rewrite Hcat. apply sorted_app; [exact Hs | apply sorted_lt_seq |].
      intros x y Hx Hy. apply in_seq in Hy.
      specialize (Hb' x a Hx (or_introl eq_refl)). lia.
    + rewrite Hcat. intros j y Hj Hy. apply in_app_or in Hj as [Hj|Hj].
      * apply (Hb' j y Hj). simpl. auto.
      * apply in_seq in Hj.
        specialize (H12 b y (or_intror (or_introl eq_refl)) Hy). lia.
    + unfold pages_from. rewrite Hfiles. apply Forall_app. split; [exact Hp|].
      constructor; [|constructor]. simpl. exact (add_pages_text _ _ Hseg).
Qed.

Lemma outline_loop_inv (items : list outline_item) :
  forall (i : nat) (st : state) (ns : list nat),
  skipn i (outlines doc) = items ->
  resume_bounds (top_level items) = map (fun n => Some (Z.of_nat n)) ns ->
  StronglySorted le ns ->
  segments_inv doc ns st ->
  segments_inv doc [] (fst (outline_loop doc i items st)).
Proof.
  induction items as [|it items IH]; intros i st ns Hskip Hbounds Hsorted Hinv.
  - apply (@segments_inv_same ns [] st st eq_refl); [contradiction | exact Hinv].
  - pose proof (skipn_tail _ _ Hskip) as Hrest.
    destruct (@loop_body_inv i it items st ns Hrest Hbounds Hsorted Hinv)
      as (ns' & Hb' & Hs' & Hinv').
    cbn [outline_loop]. unfold bind.
    destruct (loop_body doc i it st) as [st1 [[]|e]]; simpl in Hinv'.
    + apply (IH (S i) st1 ns'); auto. now rewrite <- Nat.add_1_r.
    + simpl. apply (@segments_inv_same ns' [] st1 st1 eq_refl);
        [contradiction | exact Hinv'].
Qed.

Lemma sorted_le_snoc (ids : list nat) (c : nat) :
  StronglySorted le ids -> Forall (fun k => k <= c) ids ->
  StronglySorted le (ids ++ [c]).
Proof.
  intros Hs Hc. apply sorted_app; [exact Hs | repeat constructor |].
  intros x y Hx [<-|[]]. rewrite Forall_forall in Hc. now apply Hc.
Qed.

Lemma loop_body_counter_up (i : nat) (it : outline_item) (st : state) :
  candidate_id st <= candidate_id (fst (loop_body doc i it st)).
Proof.
  destruct it as [d|l]; [|simpl; lia].
  exact (proj1 (proj1 (proj2 (loop_body_counts doc i d st)))).
Qed.

Lemma loop_body_named (i : nat) (it : outline_item) (st : state) :
  named_in_order st -> named_in_order (fst (loop_body doc i it st)).
Proof.
  intros (ids & Hnames & Hs & Hle).
  pose proof (loop_body_counter_up i it st) as Hid.
  assert (Hle' : Forall (fun k => k <= candidate_id (fst (loop_body doc i it st))) ids).
  { eapply Forall_impl; [|exact Hle]. simpl. intros k Hk. lia. }
  destruct (loop_body_files_item i it st) as [Hfiles | [_ [seg Hfiles]]].
  - exists ids. rewrite Hfiles. now repeat split.
  - exists (ids ++ [candidate_id (fst (loop_body doc i it st))]).
    rewrite Hfiles, !map_app, Hnames. split; [reflexivity|].
    split; [now apply sorted_le_snoc|].
    apply Forall_app. split; [exact Hle' | now constructor].
Qed.

Lemma outline_loop_named (items : list outline_item) :
  forall (i : nat) (st : state),
  named_in_order st -> named_in_order (fst (outline_loop doc i items st)).
Proof.
  induction items as [|it items IH]; intros i st Hst; [exact Hst|].
  pose proof (@loop_body_named i it st Hst) as Hb.
  cbn [outline_loop]. unfold bind.
  destruct (loop_body doc i it st) as [st1 [[]|e]]; simpl in Hb.
  - now apply IH.
  - exact Hb.
Qed.

(** C9, as amended: when the resume bookmarks and the top-level bookmarks
    that follow them point to pages of the document that do not go
    backwards along the outline, wherever the other bookmarks point, the
    page numbers of the files written for one document increase from file
    to file, no page is in two files, and every page written is a page of
    the document with its text. The files are written in the order of the
    candidate ids that their names stand for. *)
Theorem segments_disjoint_in_order (st : state) :
  resume_files st = [] ->
  resumes_in_order (outlines doc) ->
  StronglySorted lt (concat (segment_indices (fst (process_doc doc st)))) /\
  (forall a b sa sb j, a <> b ->
     nth_error (segment_indices (fst (process_doc doc st))) a = Some sa ->
     nth_error (segment_indices (fst (process_doc doc st))) b = Some sb ->
     In j sa -> ~ In j sb) /\
  pages_from doc (fst (process_doc doc st)) /\
  (exists ids,
     map fst (resume_files (fst (process_doc doc st))) = map resume_path ids) /\
  (forall ids,
     map fst (resume_files (fst (process_doc doc st))) = map resume_path ids ->
     StronglySorted le ids).
Proof.
  intros Hnil (ns & Hbounds & Hsorted).
  assert (Hnamed : named_in_order (fst (process_doc doc st))).
  { apply outline_loop_named. exists []. rewrite Hnil.
    repeat split; constructor. }
  destruct Hnamed as (ids0 & Hnames & Hids & _).
  assert (Hinv : segments_inv doc [] (fst (process_doc doc st))).
  { apply (@outline_loop_inv (outlines doc) 0 st ns eq_refl Hbounds Hsorted).
    unfold segments_inv, segment_indices, pages_from. rewrite Hnil. simpl.
    split; [constructor|]. split; [contradiction | constructor]. }
  destruct Hinv as (Hs & _ & Hp).
  split; [exact Hs|]. split; [|split; [exact Hp|split]].
  - intros a b sa sb j Hab Ha Hb Hja Hjb.
    destruct (Nat.lt_total a b) as [Hlt | [Heq | Hlt]]; [|contradiction|].
    + pose proof (@sorted_concat_disjoint _ Hs a b sa sb j j Hlt Ha Hb Hja Hjb). lia.
    + pose proof (@sorted_concat_disjoint _ Hs b a sb sa j j Hlt Hb Ha Hjb Hja). lia.
  - now exists ids0.
  - intros ids Hids'. rewrite Hnames in Hids'.
    now rewrite <- (resume_paths_inj _ _ Hids').
Qed.

End Disjoint.

Lemma segments_disjoint_in_order_witness :
  segment_indices (fst (process_doc doc_anomaly initial_state)) = [[1; 2; 3]; [5]] /\
  map fst (resume_files (fst (process_doc doc_anomaly initial_state)))
  = [lit "output/resumes/1.pdf"; lit "output/resumes/2.pdf"] /\
  StronglySorted lt
    (concat (segment_indices (fst (process_doc doc_anomaly initial_state)))) /\
  (forall a b sa sb j, a <> b ->
     nth_error (segment_indices (fst (process_doc doc_anomaly initial_state))) a
     = Some sa ->
     nth_error (segment_indices (fst (process_doc doc_anomaly initial_state))) b
     = Some sb ->
     In j sa -> ~ In j sb) /\
  pages_from doc_anomaly (fst (process_doc doc_anomaly initial_state)) /\
  (exists ids,
     map fst (resume_files (fst (process_doc doc_anomaly initial_state)))
     = map resume_path ids) /\
  (forall ids,
     map fst (resume_files (fst (process_doc doc_anomaly initial_state)))
     = map resume_path ids ->
     StronglySorted le ids).
Proof.
  split; [reflexivity|]. split; [reflexivity|].
  apply (@segments_disjoint_in_order doc_anomaly initial_state eq_refl).
  exists [1; 4; 5; 6]. split; [reflexivity|].
  repeat (constructor; [|repeat (constructor; try lia)]). constructor.
Defined.

(** C9 as stated fails: the bookmark of the second resume points into the
    pages of the first, and page 2 is written to both files. *)
Lemma segments_overlap :
  segment_indices (fst (run [doc_overlap])) = [[1; 2]; [2; 3]] /\
  map fst (resume_files (fst (run [doc_overlap]))) = [resume_path 1; resume_path 2] /\
  snd (run [doc_overlap]) = Ok tt /\
  exists sa sb,
    nth_error (segment_indices (fst (run [doc_overlap]))) 0 = Some sa /\
    nth_error (segment_indices (fst (run [doc_overlap]))) 1 = Some sb /\
    In 2 sa /\ In 2 sb.
Proof.
  repeat split; try (vm_compute; reflexivity).
  exists [1; 2], [2; 3]. repeat split; try (vm_compute; reflexivity); simpl; auto.
Qed.

(** * Further properties of the loop *)

(** ** The forward scan *)

Section Scan.

Variable doc : Doc.

Lemma scan_next_position (l : list outline_item) (nd : Destination) :
  scan_next l = Ok nd ->
  exists m, nth_error l m = Some (Dest nd) /\
            forall j, j < m -> exists x, nth_error l j = Some (Nested x).
Proof.
  induction l as [|[d|x] l IH]; simpl; intros H.
  - discriminate.
  - injection H as ->. exists 0. split; [reflexivity | intros j Hj; lia].
  - destruct (IH H) as (m & Hm & Hlt). exists (S m). split; [exact Hm|].
    intros [|j] Hj; [now exists x | apply Hlt; lia].
Qed.

Lemma scan_next_raises (l : list outline_item) :
  (exists e, scan_next l = Raise e) <->
  forall m it, nth_error l m = Some it -> exists x, it = Nested x.
Proof.
  induction l as [|[d|x] l IH]; simpl.
  - split; [intros _ [|m] it H; discriminate | intros _; now exists IndexError].
  - split; [intros [e H]; discriminate|].
    intros H. destruct (H 0 (Dest d) eq_refl) as [x Hx]. discriminate.
  - rewrite IH. split.
    + intros H [|m] it Hm; [injection Hm as <-; now exists x | now apply (H m)].
    + intros H m it Hm. now apply (H (S m)).
Qed.

Lemma scan_next_only_index_error (l : list outline_item) (e : exn) :
  scan_next l = Raise e -> e = IndexError.
Proof.
  induction l as [|[d|x] l IH]; simpl; intros H;
    [now injection H | discriminate | auto].
Qed.

(** X1: the scan of lines 116-121 returns the first item after position [i]
    that is not a list, and raises [IndexError], and nothing else, exactly
    when every item after [i] is a list. *)
Theorem forward_scan_spec (i : nat) :
  (forall nd, next_destination doc i = Ok nd <->
              exists k, is_next_top_level doc i k nd) /\
  (next_destination doc i = Raise IndexError <-> only_lists_after doc i) /\
  next_destination doc i <> Raise ValueError /\
  next_destination doc i <> Raise AttributeError.
Proof.
  split; [|split].
  - intros nd. split.
    + unfold next_destination. intros H.
      apply scan_next_position in H as (m & Hm & Hlt).
      rewrite nth_error_skipn in Hm. exists (i + 1 + m).
      split; [lia|]. split; [exact Hm|].
      intros j Hj. specialize (Hlt (j - (i + 1)) ltac:(lia)).
      rewrite nth_error_skipn in Hlt.
      now replace (i + 1 + (j - (i + 1))) with j in Hlt by lia.
    + intros [k Hk]. exact (next_destination_finds Hk).
  - unfold next_destination, only_lists_after. split.
    + intros H j it Hj Hit.
      apply (proj1 (scan_next_raises _) (ex_intro _ _ H) (j - (i + 1))).
      rewrite nth_error_skipn. now replace (i + 1 + (j - (i + 1))) with j by lia.
    + intros H.
      destruct (proj2 (scan_next_raises (skipn (i + 1) (outlines doc)))) as [e He].
      * intros m it Hm. rewrite nth_error_skipn in Hm. apply (H (i + 1 + m)); [lia | exact Hm].
      * now rewrite He, (scan_next_only_index_error _ He).
  - split; intros H; apply scan_next_only_index_error in H; discriminate.
Qed.

End Scan.

Lemma forward_scan_spec_witness :
  next_destination doc_scenario 1 = Ok (dest_at (lit "Cover letter") 13).
Proof.
  apply (forward_scan_spec doc_scenario 1). exists 3.
  split; [lia|]. split; [reflexivity|].
  intros j Hj. assert (j = 2) as -> by lia. eexists. reflexivity.
Defined.

(** ** Lists of sub-destinations *)

Section Flatten.

Variable doc : Doc.

Lemma scan_next_flat (l : list outline_item) :
  scan_next (map Dest (top_level l)) = scan_next l.
Proof.
  induction l as [|[d|x] l IH]; simpl; auto.
Qed.

Lemma add_pages_same_pages (doc' : Doc) (js : list Z) :
  pages doc' = pages doc -> add_pages doc' js = add_pages doc js.
Proof.
  intros H. induction js as [|j js IH]; simpl; [reflexivity|].
  unfold getPage. now rewrite H, IH.
Qed.

(** The loop body looks at the document through its pages and through the
    result of the forward scan only. *)
Lemma loop_body_same_scan (doc' : Doc) (i i' : nat) (d : Destination) (st : state) :
  pages doc' = pages doc ->
  next_destination doc' i' = next_destination doc i ->
  loop_body doc' i' (Dest d) st = loop_body doc i (Dest d) st.
Proof.
  intros Hp Hn. rewrite !loop_body_eq.
  assert (Hread : read_page doc' d = read_page doc d).
  { unfold read_page, getDestinationPageNumber, getPage. now rewrite Hp. }
  rewrite Hread. destruct (read_page doc d) as [[n page]|]; [|reflexivity].
  destruct (candidate_branch d page st) as [st1 [[]|e]]; [|reflexivity].
  rewrite !resume_branch_eq. unfold next_page. rewrite Hn.
  destruct (is_resume_ok (title d)); [|reflexivity].
  destruct (next_destination doc i) as [nd|]; [|reflexivity]. simpl.
  unfold getDestinationPageNumber.
  destruct (dest_page nd) as [m|]; [|reflexivity].
  now rewrite (add_pages_same_pages _ _ Hp).
Qed.

Lemma outline_loop_flat (items : list outline_item) :
  forall (i i' : nat) (st : state),
  skipn i (outlines doc) = items ->
  skipn i' (map Dest (top_level (outlines doc))) = map Dest (top_level items) ->
  outline_loop (flatten_outline doc) i' (map Dest (top_level items)) st
  = outline_loop doc i items st.
Proof.
  induction items as [|[d|x] items IH]; intros i i' st Hi Hi'.
  - reflexivity.
  - simpl top_level in *. simpl map in *. cbn [outline_loop]. unfold bind.
    pose proof (skipn_tail _ _ Hi) as Hr. pose proof (skipn_tail _ _ Hi') as Hr'.
    rewrite (@loop_body_same_scan (flatten_outline doc) i i' d st eq_refl).
    + destruct (loop_body doc i (Dest d) st) as [st1 [[]|e]]; [|reflexivity].
      apply IH; now rewrite <- Nat.add_1_r.
    + unfold next_destination. simpl outlines. now rewrite Hr, Hr', scan_next_flat.
  - simpl top_level in *. cbn [outline_loop]. unfold bind. simpl.
    apply IH; [|exact Hi']. rewrite <- Nat.add_1_r. exact (skipn_tail _ _ Hi).
Qed.

(** X2: the lists of sub-destinations never change the result: the run
    over a document is the run over the same document with these lists
    taken out of the outline. *)
Theorem nested_bookmarks_ignored (st : state) :
  process_doc (flatten_outline doc) st = process_doc doc st.
Proof.
  unfold process_doc. simpl outlines. now apply outline_loop_flat.
Qed.

End Flatten.


(** ** The statistics *)

Section Statistics.

Lemma count_resumes_cons (it : outline_item) (items : list outline_item) :
  count_resumes (it :: items) = count_resumes [it] + count_resumes items.
Proof.
  unfold count_resumes. destruct it as [d|l]; simpl; [|reflexivity].
  destruct (is_resume_ok (title d)); reflexivity.
Qed.

Lemma count_resume_errors_cons (it : outline_item) (items : list outline_item) :
  count_resume_errors (it :: items)
  = count_resume_errors [it] + count_resume_errors items.
Proof.
  unfold count_resume_errors. destruct it as [d|l]; simpl; [|reflexivity].
  destruct (is_resume_error (title d)); reflexivity.
Qed.

Lemma loop_body_stats (doc : Doc) (i : nat) (it : outline_item) (st : state) :
  files_counted st ->
  match loop_body doc i it st with
  | (st', Ok _) =>
      files_counted st' /\
      resume_count st' = resume_count st + count_resumes [it] /\
      resume_errors st' = resume_errors st + count_resume_errors [it]
  | (st', Raise _) =>
      List.length (resume_files st') <= resume_count st'
        <= List.length (resume_files st') + 1
  end.
Proof.
  unfold files_counted. intros Hst. destruct it as [d|l];
    [|simpl; unfold ret; repeat split; (exact Hst || (cbn; lia))].
  rewrite loop_body_eq.
  destruct (read_page doc d) as [[n page]|]; [|lia].
  destruct (candidate_branch_stats d page st) as (Hc & He & Hf).
  destruct (candidate_branch d page st) as [st1 [[]|e]]; simpl in Hc, He, Hf;
    [|rewrite Hc, Hf; lia].
  rewrite resume_branch_eq. unfold count_resumes, count_resume_errors. simpl.
  destruct (is_resume_ok (title d)) eqn:Hok.
  - rewrite (resume_ok_not_error _ Hok).
    destruct (next_page doc i) as [nd|];
      [destruct (add_pages doc _) as [seg|]|]; simpl;
      rewrite ?length_app, ?Hc, ?He, ?Hf; simpl; lia.
  - destruct (is_resume_error (title d)); simpl; rewrite ?Hc, ?He, ?Hf; lia.
Qed.

Lemma outline_loop_stats (doc : Doc) (items : list outline_item) :
  forall (i : nat) (st : state),
  files_counted st ->
  match outline_loop doc i items st with
  | (st', Ok _) =>
      files_counted st' /\
      resume_count st' = resume_count st + count_resumes items /\
      resume_errors st' = resume_errors st + count_resume_errors items
  | (st', Raise _) =>
      List.length (resume_files st') <= resume_count st'
        <= List.length (resume_files st') + 1
  end.
Proof.
  induction items as [|it items IH]; intros i st Hst.
  - simpl. unfold ret, count_resumes, count_resume_errors. simpl.
    repeat split; (exact Hst || lia).
  - cbn [outline_loop]. unfold bind.
    pose proof (loop_body_stats doc i it Hst) as Hb.
    destruct (loop_body doc i it st) as [st1 [[]|e]]; [|exact Hb].
    destruct Hb as (Hst1 & Hc1 & He1).
    pose proof (IH (S i) st1 Hst1) as Hl.
    destruct (outline_loop doc (S i) items st1) as [st2 [[]|e]]; [|exact Hl].
    destruct Hl as (Hst2 & Hc2 & He2). split; [exact Hst2|].
    rewrite count_resumes_cons, count_resume_errors_cons. lia.
Qed.

Lemma process_docs_stats (docs : list Doc) :
  forall st : state,
  files_counted st ->
  match process_docs docs st with
  | (st', Ok _) =>
      files_counted st' /\
      resume_count st' = resume_count st + total_resumes docs /\
      resume_errors st' = resume_errors st + total_resume_errors docs
  | (st', Raise _) =>
      List.length (resume_files st') <= resume_count st'
        <= List.length (resume_files st') + 1
  end.
Proof.
  induction docs as [|doc docs IH]; intros st Hst.
  - simpl. unfold ret, total_resumes, total_resume_errors. simpl.
    repeat split; (exact Hst || lia).
  - cbn [process_docs]. unfold bind, process_doc.
    pose proof (outline_loop_stats doc (outlines doc) 0 Hst) as Hd.
    destruct (outline_loop doc 0 (outlines doc) st) as [st1 [[]|e]]; [|exact Hd].
    destruct Hd as (Hst1 & Hc1 & He1).
    pose proof (IH st1 Hst1) as Hr.
    destruct (process_docs docs st1) as [st2 [[]|e]]; [|exact Hr].
    destruct Hr as (Hst2 & Hc2 & He2). split; [exact Hst2|].
    unfold total_resumes, total_resume_errors in *. simpl. lia.
Qed.

(** X4: the two statistics of a run that finishes are the numbers of
    top-level bookmarks that match the resume pattern and the resume-error
    pattern, and one file was written per resume counted. In a run that an
    exception stops the resume count is the number of files written, or one
    more: a resume is counted before its pages are collected. *)
Theorem run_statistics (docs : list Doc) :
  List.length (resume_files (fst (run docs))) <= resume_count (fst (run docs))
    <= List.length (resume_files (fst (run docs))) + 1 /\
  (snd (run docs) = Ok tt ->
   resume_count (fst (run docs)) = total_resumes docs /\
   resume_errors (fst (run docs)) = total_resume_errors docs /\
   List.length (resume_files (fst (run docs))) = total_resumes docs).
Proof.
  unfold run.
  pose proof (process_docs_stats docs (st := initial_state) eq_refl) as H.
  destruct (process_docs docs initial_state) as [st [[]|e]]; simpl in *.
  - destruct H as (Hf & Hc & He). unfold files_counted in Hf.
    split; [lia|]. intros _. repeat split; lia.
  - split; [exact H | discriminate].
Qed.

Lemma run_statistics_witness :
  resume_count (fst (run [doc_scenario; doc_orphan])) = 2 /\
  resume_errors (fst (run [doc_scenario; doc_orphan])) = 0 /\
  List.length (resume_files (fst (run [doc_scenario; doc_orphan]))) = 2.
Proof.
  apply (run_statistics [doc_scenario; doc_orphan]). reflexivity.
Defined.

End Statistics.

(** ** Runs that finish *)

Section Clean.

Variable doc : Doc.

Lemma passable_list_cons (d : Destination) (ds : list Destination) :
  passable_list doc (d :: ds) <->
  page_read doc d /\ details_ok doc d /\
  (is_resume_ok (title d) = true -> ds <> []) /\ passable_list doc ds.
Proof.
  unfold passable_list. split.
  - intros (Hp & Hd & Hl).
    apply Forall_cons_iff in Hp as [Hp Hps]. apply Forall_cons_iff in Hd as [Hd Hds].
    repeat split; auto.
    + intros Hok ->. specialize (Hl [] d eq_refl). congruence.
    + intros ds' x ->. apply (Hl (d :: ds') x). reflexivity.
  - intros (Hp & Hd & Hne & Hps & Hds & Hl). repeat split; auto.
    intros [|y ds'] x E; simpl in E; injection E as <- ->.
    + destruct (is_resume_ok (title d)); [now destruct Hne | reflexivity].
    + now apply (Hl ds' x).
Qed.

Lemma scan_next_top (l : list outline_item) (nd : Destination)
    (tl : list Destination) :
  top_level l = nd :: tl -> scan_next l = Ok nd.
Proof.
  induction l as [|[d|x] l IH]; simpl; intros H;
    [discriminate | now injection H as -> | auto].
Qed.

Lemma page_inside_read (d : Destination) : page_inside doc d -> page_read doc d.
Proof.
  intros (n & Hn & Hlt). destruct (getPage_nat_ok doc Hlt) as [p Hp].
  now exists (Z.of_nat n), p.
Qed.

Lemma clean_list_passable (ds : list Destination) :
  clean_list doc ds -> passable_list doc ds.
Proof.
  intros (Hp & Hd & Hl). split; [|now split].
  eapply Forall_impl; [|exact Hp]. exact page_inside_read.
Qed.

(** What a pass of the loop body needs, and what it shows when it
    returns. *)
Lemma loop_body_returns (i : nat) (d : Destination) (rest : list outline_item)
    (st : state) :
  skipn (i + 1) (outlines doc) = rest ->
  snd (loop_body doc i (Dest d) st) = Ok tt ->
  page_read doc d /\ details_ok doc d /\
  (is_resume_ok (title d) = true -> top_level rest <> []).
Proof.
  intros Hrest. rewrite loop_body_eq.
  destruct (read_page doc d) as [[n page]|] eqn:Hread; [|discriminate].
  apply read_page_ok in Hread as [Hn Hpage].
  rewrite candidate_branch_eq. unfold details_ok.
  assert (Hscan : forall st1,
    snd (resume_branch doc i d n st1) = Ok tt ->
    is_resume_ok (title d) = true -> top_level rest <> []).
  { intros st1 H Hok Hnil. rewrite resume_branch_eq, Hok in H.
    unfold next_page, next_destination in H.
    rewrite Hrest, (scan_next_none _ Hnil) in H. discriminate. }
  assert (Hread : page_read doc d) by now exists n, page.
  destruct (is_candidate_details (title d)).
  - destruct (extract_details (extractText page)) as [[[[t f] l] e]|] eqn:Hr;
      [|discriminate].
    intros H. split; [exact Hread|]. split; [|exact (Hscan _ H)].
    intros _. now exists n, page, (t, f, l, e).
  - intros H. split; [exact Hread|]. split; [|exact (Hscan _ H)].
    discriminate.
Qed.

Lemma loop_body_gets_through (i : nat) (d : Destination)
    (rest : list outline_item) (st : state) :
  skipn (i + 1) (outlines doc) = rest ->
  page_read doc d -> details_ok doc d ->
  (is_resume_ok (title d) = true -> top_level rest <> []) ->
  passable_list doc (top_level rest) ->
  snd (loop_body doc i (Dest d) st) = Ok tt.
Proof.
  intros Hrest (n & page & Hn & Hpage) Hd Hne (Hps & _ & _). rewrite loop_body_eq.
  rewrite (proj2 (read_page_ok doc d n page) (conj Hn Hpage)).
  assert (Hc : exists st1, candidate_branch d page st = (st1, Ok tt)).
  { rewrite candidate_branch_eq. unfold details_ok in Hd.
    destruct (is_candidate_details (title d)); [|eauto].
    destruct (Hd eq_refl) as (n' & page' & r & Hn' & Hpage' & Hr).
    rewrite Hn in Hn'. injection Hn' as <-.
    rewrite Hpage in Hpage'. injection Hpage' as <-. rewrite Hr.
    destruct r as [[[t f] l] e]. eauto. }
  destruct Hc as [st1 ->]. rewrite resume_branch_eq.
  destruct (is_resume_ok (title d)); [|destruct (is_resume_error (title d)); reflexivity].
  unfold next_page, next_destination. rewrite Hrest.
  destruct (top_level rest) as [|nd tl] eqn:Htop; [now destruct Hne|].
  rewrite (scan_next_top _ Htop). cbn [obind].
  apply Forall_cons_iff in Hps as [(e & pnd & He & Hpnd) _].
  unfold getDestinationPageNumber. rewrite He.
  assert (Hna : (- Z.of_nat (getNumPages doc) <= n)%Z).
  { apply (proj1 (getPage_ok_iff doc n)). eauto. }
  assert (Hea : (e <= Z.of_nat (getNumPages doc))%Z).
  { pose proof (proj1 (getPage_ok_iff doc e) (ex_intro _ pnd Hpnd)). lia. }
  destruct (add_pages_between doc Hna Hea) as [seg ->]. reflexivity.
Qed.

Lemma outline_loop_finishes (items : list outline_item) :
  forall (i : nat) (st : state),
  skipn i (outlines doc) = items ->
  (snd (outline_loop doc i items st) = Ok tt <-> passable_list doc (top_level items)).
Proof.
  induction items as [|[d|x] items IH]; intros i st Hskip.
  - simpl. split; [|reflexivity]. intros _. repeat split; try constructor.
    intros ds' d E. now destruct ds'.
  - pose proof (skipn_tail _ _ Hskip) as Hrest.
    simpl top_level. rewrite passable_list_cons.
    cbn [outline_loop]. unfold bind.
    assert (HS : skipn (S i) (outlines doc) = items) by now rewrite <- Nat.add_1_r.
    split.
    + intros H.
      destruct (loop_body doc i (Dest d) st) as [st1 [[]|e]] eqn:Hb; [|discriminate].
      destruct (@loop_body_returns i d items st Hrest) as (Hp & Hd & Hne);
        [now rewrite Hb|].
      split; [exact Hp | split; [exact Hd | split; [exact Hne |]]].
      now apply (IH (S i) st1 HS).
    + intros (Hp & Hd & Hne & Hclean).
      pose proof (@loop_body_gets_through i d items st Hrest Hp Hd) as Hb.
      destruct (loop_body doc i (Dest d) st) as [st1 [[]|e]].
      * now apply (IH (S i) st1 HS).
      * now apply Hb.
  - simpl top_level. cbn [outline_loop]. unfold bind. simpl.
    apply IH. rewrite <- Nat.add_1_r. exact (skipn_tail _ _ Hskip).
Qed.

Lemma runs_clean_finishes (st : state) :
  runs_clean doc -> snd (process_doc doc st) = Ok tt.
Proof.
  intros H. apply (@outline_loop_finishes (outlines doc) 0 st eq_refl).
  now apply clean_list_passable.
Qed.

End Clean.

Lemma process_docs_finishes (docs : list Doc) :
  forall st : state,
  snd (process_docs docs st) = Ok tt <-> Forall gets_through docs.
Proof.
  induction docs as [|doc docs IH]; intros st.
  - simpl. split; [constructor | reflexivity].
  - cbn [process_docs]. unfold bind, process_doc. rewrite Forall_cons_iff.
    pose proof (@outline_loop_finishes doc (outlines doc) 0 st eq_refl) as Hd.
    fold (gets_through doc) in Hd.
    destruct (outline_loop doc 0 (outlines doc) st) as [st1 [[]|e]]; simpl in Hd.
    + rewrite IH. tauto.
    + split; [discriminate|]. intros [H _]. now apply Hd in H.
Qed.

(** X5: a run finishes without an exception exactly when, in every
    document, each top-level bookmark has a page number at which the list
    of pages has a page (a number from minus the number of pages up to the
    number of pages, without it, so that -1, the number of a bookmark whose
    page is not found, reads the last page), the page of each
    candidate-details bookmark can be read as a candidate, and the last
    top-level bookmark is not a resume bookmark. *)
Theorem run_finishes_iff (docs : list Doc) :
  snd (run docs) = Ok tt <-> Forall gets_through docs.
Proof.
  apply process_docs_finishes.
Qed.

Lemma run_finishes_iff_witness : Forall gets_through [doc_scenario; doc_unresolved].
Proof.
  apply (run_finishes_iff [doc_scenario; doc_unresolved]). reflexivity.
Defined.

(** ** The rows of the CSV file *)

Section Rows.

Variable doc : Doc.

Lemma details_of_cons (it : outline_item) (items : list outline_item) :
  details_of (it :: items) = details_of [it] ++ details_of items.
Proof.
  unfold details_of. destruct it as [d|l]; simpl; [|reflexivity].
  destruct (is_candidate_details (title d)); reflexivity.
Qed.

Lemma loop_body_rows (i : nat) (it : outline_item) (st : state) :
  exists rows seen rest,
    csv_rows (fst (loop_body doc i it st)) = csv_rows st ++ rows /\
    details_of [it] = seen ++ rest /\
    Forall2 (row_of doc) seen rows /\
    (snd (loop_body doc i it st) = Ok tt -> rest = []).
Proof.
  destruct it as [d|l];
    [|exists [], [], []; simpl; rewrite app_nil_r; repeat split; constructor].
  rewrite loop_body_eq. unfold details_of. simpl.
  destruct (read_page doc d) as [[n page]|] eqn:Hread.
  - apply read_page_ok in Hread as [Hn Hpage]. rewrite candidate_branch_eq.
    destruct (is_candidate_details (title d)).
    + destruct (extract_details (extractText page)) as [[[[t f] l] e]|] eqn:Hr.
      * exists [mkRow (candidate_id st + 1) t f l e], [d], [].
        rewrite (proj2 (resume_branch_frame doc i d n _)). simpl.
        repeat split. constructor; [|constructor]. now exists n, page.
      * exists [], [], [d]. simpl. rewrite app_nil_r.
        repeat split; [constructor | discriminate].
    + exists [], [], [].
      rewrite (proj2 (resume_branch_frame doc i d n _)), app_nil_r.
      repeat split. constructor.
  - exists [], [], (if is_candidate_details (title d) then [d] else []).
    simpl. rewrite app_nil_r. repeat split; [constructor | discriminate].
Qed.

Lemma outline_loop_rows (items : list outline_item) :
  forall (i : nat) (st : state),
  exists rows seen rest,
    csv_rows (fst (outline_loop doc i items st)) = csv_rows st ++ rows /\
    details_of items = seen ++ rest /\
    Forall2 (row_of doc) seen rows /\
    (snd (outline_loop doc i items st) = Ok tt -> rest = []).
Proof.
  induction items as [|it items IH]; intros i st.
  - exists [], [], []. simpl. rewrite app_nil_r. repeat split. constructor.
  - destruct (loop_body_rows i it st) as (rows1 & seen1 & rest1 & Hr1 & Hs1 & Hf1 & Ho1).
    cbn [outline_loop]. unfold bind. rewrite details_of_cons, Hs1.
    destruct (loop_body doc i it st) as [st1 [[]|e]]; simpl in *.
    + rewrite (Ho1 eq_refl), app_nil_r.
      destruct (IH (S i) st1) as (rows2 & seen2 & rest2 & Hr2 & Hs2 & Hf2 & Ho2).
      exists (rows1 ++ rows2), (seen1 ++ seen2), rest2.
      rewrite Hr2, Hr1, Hs2, !app_assoc.
      repeat split; [now apply Forall2_app | exact Ho2].
    + exists rows1, seen1, (rest1 ++ details_of items).
      rewrite app_assoc. repeat split; [exact Hr1 | exact Hf1 | discriminate].
Qed.

(** X6: the rows that the run over a document adds are, in the order of
    the outline, the candidates read from the pages of its candidate-details
    bookmarks: one row per bookmark, none left out and none from elsewhere,
    up to the bookmark where an exception stops the run, and for all of them
    when the run finishes. *)
Theorem rows_follow_outline (st : state) :
  exists rows seen rest,
    csv_rows (fst (process_doc doc st)) = csv_rows st ++ rows /\
    details_of (outlines doc) = seen ++ rest /\
    Forall2 (row_of doc) seen rows /\
    (snd (process_doc doc st) = Ok tt -> rest = []).
Proof.
  apply outline_loop_rows.
Qed.

End Rows.

Lemma rows_follow_outline_witness :
  exists rows seen,
    csv_rows (fst (process_doc doc_overlap initial_state)) = rows /\
    details_of (outlines doc_overlap) = seen /\
    Forall2 (row_of doc_overlap) seen rows.
Proof.
  destruct (rows_follow_outline doc_overlap initial_state)
    as (rows & seen & rest & Hrows & Hseen & Hall & Hrest).
  specialize (Hrest eq_refl). subst rest. rewrite app_nil_r in Hseen.
  exists rows, seen. repeat split; assumption.
Defined.

(** ** File names and row ids *)

Section Names.

(** X8: different candidate ids give different file names, so the resume
    of one candidate never replaces the resume of another. *)
Theorem resume_path_injective (n m : nat) :
  resume_path n = resume_path m -> n = m.
Proof.
  unfold resume_path. intros H.
  apply app_inv_head in H. apply app_inv_head in H. apply app_inv_tail in H.
  now apply str_of_nat_injective.
Qed.

Lemma resume_path_injective_witness : 12 = 12.
Proof.
  apply (@resume_path_injective 12 12). reflexivity.
Defined.

Lemma files_within_rows_extends (st st' : state) :
  resume_files st' = resume_files st ->
  List.length (csv_rows st) <= List.length (csv_rows st') ->
  files_within_rows st -> files_within_rows st'.
Proof.
  intros Hf Hr (ids & Hn & Hle). exists ids. rewrite Hf. split; [exact Hn|].
  eapply Forall_impl; [|exact Hle]. simpl. intros k Hk. lia.
Qed.

Lemma extends_rows_length (st st' : state) :
  extends st st' -> List.length (csv_rows st) <= List.length (csv_rows st').
Proof.
  intros ([rows H] & _). rewrite H, length_app. lia.
Qed.

Lemma loop_body_within_rows (doc : Doc) (i : nat) (it : outline_item) (st : state) :
  counted st -> files_within_rows st ->
  files_within_rows (fst (loop_body doc i it st)).
Proof.
  intros Hc Hw.
  pose proof (extends_rows_length (loop_body_extends doc i it st)) as Hlen.
  pose proof (loop_body_counted doc i it Hc) as Hcount.
  destruct (loop_body_files_item doc i it st) as [Hf | (Hok & seg & Hf)].
  - exact (@files_within_rows_extends _ _ Hf Hlen Hw).
  - destruct (loop_body doc i it st) as [st1 [[]|e]]; simpl in *; [|discriminate].
    destruct Hcount as [[_ Hid] _]. destruct Hw as (ids & Hn & Hle).
    exists (ids ++ [candidate_id st1]). rewrite Hf, !map_app, Hn.
    split; [reflexivity|]. apply Forall_app. split.
    + eapply Forall_impl; [|exact Hle]. simpl. intros k Hk. lia.
    + constructor; [lia | constructor].
Qed.

Lemma outline_loop_within_rows (doc : Doc) (items : list outline_item) :
  forall (i : nat) (st : state),
  counted st -> files_within_rows st ->
  files_within_rows (fst (outline_loop doc i items st)).
Proof.
  induction items as [|it items IH]; intros i st Hc Hw; [exact Hw|].
  pose proof (loop_body_within_rows doc i it Hc Hw) as Hb.
  pose proof (loop_body_counted doc i it Hc) as Hcount.
  cbn [outline_loop]. unfold bind.
  destruct (loop_body doc i it st) as [st1 [[]|e]]; simpl in Hb; [|exact Hb].
  apply IH; [exact (proj1 Hcount) | exact Hb].
Qed.

Lemma process_docs_within_rows (docs : list Doc) :
  forall st : state,
  counted st -> files_within_rows st ->
  files_within_rows (fst (process_docs docs st)).
Proof.
  induction docs as [|doc docs IH]; intros st Hc Hw; [exact Hw|].
  pose proof (outline_loop_within_rows doc (outlines doc) 0 Hc Hw) as Hd.
  pose proof (outline_loop_counted doc (outlines doc) 0 Hc) as Hcount.
  cbn [process_docs]. unfold bind, process_doc.
  destruct (outline_loop doc 0 (outlines doc) st) as [st1 [[]|e]]; simpl in Hd;
    [|exact Hd].
  apply IH; [exact (proj1 Hcount) | exact Hd].
Qed.

(** X7: in every run, finished or not, each file written is named by a
    candidate id that is 0 or the id of a row of the CSV file: a resume
    file never points to a candidate that has no row, except the resumes
    met before the first candidate. *)
Theorem files_match_rows (docs : list Doc) (path : str) (seg : list Page) :
  In (path, seg) (resume_files (fst (run docs))) ->
  exists k, path = resume_path k /\
            (k = 0 \/ In k (output_ids (fst (run docs)))).
Proof.
  intros Hin. unfold run in *.
  assert (Hw : files_within_rows (fst (process_docs docs initial_state))).
  { apply process_docs_within_rows; [exact initial_counted|].
    exists []. split; constructor. }
  assert (Hids : output_ids (fst (process_docs docs initial_state))
                 = seq 1 (List.length (csv_rows (fst (process_docs docs initial_state))))).
  { pose proof (process_docs_counted docs initial_counted) as H.
    destruct (process_docs docs initial_state) as [st [[]|e]]; simpl;
      [exact (proj1 (proj1 H)) | exact (proj1 H)]. }
  destruct Hw as (ids & Hn & Hle).
  apply (in_map fst) in Hin. simpl in Hin. rewrite Hn in Hin.
  apply in_map_iff in Hin as (k & Hk & Hkin). exists k. split; [now symmetry|].
  rewrite Forall_forall in Hle. specialize (Hle k Hkin).
  destruct k as [|k]; [now left|]. right. rewrite Hids. apply in_seq. lia.
Qed.

Lemma files_match_rows_witness :
  exists k, resume_path 1 = resume_path k /\
            (k = 0 \/ In k (output_ids (fst (run [doc_scenario])))).
Proof.
  apply (@files_match_rows [doc_scenario] (resume_path 1)
           (map (fun j => mkPage j details_text) [10; 11; 12])).
  vm_compute. left. reflexivity.
Defined.

End Names.

(** ** The email line *)

Section Email.

Lemma list_index_first (x : str) (pre post : list str) :
  ~ In x pre -> list_index x (pre ++ x :: post) = Ok (List.length pre).
Proof.
  induction pre as [|y pre IH]; simpl; intros H.
  - now rewrite (proj2 (str_eqb_eq x x) eq_refl).
  - destruct (str_eqb y x) eqn:E; [apply str_eqb_eq in E; tauto|].
    rewrite IH; tauto.
Qed.

(** X9: the email is the line after the first line that is exactly
    "Email Address:", without the white space around it; when that line is
    the last one the lookup of the next line raises [IndexError], and when
    no line is the label [index] raises [ValueError]. *)
Theorem email_line (pre post : list str) (e : str) :
  ~ In (lit "Email Address:") pre ->
  parse_email (pre ++ lit "Email Address:" :: e :: post) = Ok (strip e) /\
  parse_email (pre ++ [lit "Email Address:"]) = Raise IndexError /\
  parse_email pre = Raise ValueError.
Proof.
  intros H. unfold parse_email. repeat split.
  - rewrite (@list_index_first _ pre (e :: post) H). cbn [obind]. unfold py_index.
    rewrite nth_error_app2 by lia.
    now replace (List.length pre + 1 - List.length pre) with 1 by lia.
  - rewrite (@list_index_first _ pre [] H). cbn [obind]. unfold py_index.
    rewrite nth_error_app2 by lia.
    now replace (List.length pre + 1 - List.length pre) with 1 by lia.
  - now rewrite (@list_index_absent _ _ H).
Qed.

Lemma email_line_witness :
  parse_email (split_on nl details_text) = Ok (lit "john@example.org").
Proof.
  apply (@email_line [lit "Mr John Q Public"] [] (lit " john@example.org ")).
  simpl. intros [H|H]; [discriminate | exact H].
Defined.

End Email.

(** ** Tokens and trimmed strings *)

Section Tokens.

Lemma split_ws_from_tokens (s : str) :
  forall cur : str,
  forallb (fun c => negb (is_space c)) cur = true ->
  Forall is_token (split_ws_from cur s).
Proof.
  assert (Hrev : forall cur : str,
            cur <> [] -> forallb (fun c => negb (is_space c)) cur = true ->
            is_token (rev cur)).
  { intros cur Hne Hcur. split.
    - intros E. apply (f_equal (@rev char)) in E. rewrite rev_involutive in E.
      contradiction.
    - apply forallb_forall. intros c Hc. apply in_rev in Hc.
      rewrite forallb_forall in Hcur. now apply Hcur. }
  induction s as [|c s IH]; intros cur Hcur; simpl.
  - destruct cur as [|x cur]; [constructor|].
    constructor; [|constructor]. now apply Hrev.
  - destruct (is_space c) eqn:Hc.
    + destruct cur as [|x cur]; [now apply IH|].
      constructor; [now apply Hrev | now apply IH].
    + apply IH. simpl. now rewrite Hc, Hcur.
Qed.

Lemma lstrip_head (s : str) (c : char) (r : str) :
  lstrip s = c :: r -> is_space c = false.
Proof.
  induction s as [|x s IH]; simpl; [discriminate|].
  destruct (is_space x) eqn:Hx; [exact IH|]. now intros [= <- _].
Qed.

Lemma lstrip_suffix (s : str) :
  exists p, s = p ++ lstrip s /\ forallb is_space p = true.
Proof.
  induction s as [|x s (p & Hp & Hsp)]; simpl; [now exists []|].
  destruct (is_space x) eqn:Hx; [|now exists []].
  exists (x :: p). simpl. now rewrite Hx, Hsp, <- Hp.
Qed.

Lemma strip_trimmed (s : str) : trimmed (strip s).
Proof.
  unfold strip. split.
  - intros c r E.
    destruct (lstrip_suffix (rev (lstrip s))) as (p & Hp & _).
    apply (f_equal (@rev char)) in Hp.
    rewrite rev_involutive, rev_app_distr, E in Hp. simpl in Hp.
    exact (lstrip_head _ Hp).
  - intros c r E. apply (f_equal (@rev char)) in E.
    rewrite rev_involutive, rev_app_distr in E. simpl in E.
    exact (lstrip_head _ E).
Qed.

Lemma py_last_In (l : list str) (a : str) : py_last l = Ok a -> In a l.
Proof.
  unfold py_last. destruct (rev l) as [|x r] eqn:E; [discriminate|].
  intros [= <-]. apply in_rev. rewrite E. now left.
Qed.

Lemma parse_fullname_fields (toks : list str) (t f l : str) :
  parse_fullname toks = Ok (t, f, l) ->
  (t = [] \/ In t TITLES) /\ In f toks /\ In l toks.
Proof.
  unfold parse_fullname, py_index.
  destruct (nth_error toks 0) as [t1|] eqn:H0; [|discriminate]. cbn [obind].
  destruct (in_titles t1) eqn:Ht.
  - destruct (nth_error toks 1) as [t2|] eqn:H1; [|discriminate]. cbn [obind].
    destruct (py_last toks) as [x|] eqn:Hl; [|discriminate]. cbn [obind fst snd].
    intros [= <- <- <-]. split; [right; now apply in_titles_In|].
    split; [exact (nth_error_In _ _ H1) | exact (py_last_In _ Hl)].
  - cbn [obind]. destruct (py_last toks) as [x|] eqn:Hl; [|discriminate].
    cbn [obind fst snd]. intros [= <- <- <-]. split; [now left|].
    split; [exact (nth_error_In _ _ H0) | exact (py_last_In _ Hl)].
Qed.

Lemma parse_email_trimmed (details : list str) (e : str) :
  parse_email details = Ok e -> trimmed e.
Proof.
  unfold parse_email.
  destruct (list_index _ details) as [idx|]; [|discriminate]. cbn [obind].
  destruct (py_index details (idx + 1)) as [line|]; [|discriminate]. cbn [obind].
  intros [= <-]. apply strip_trimmed.
Qed.

Lemma extract_details_well_formed (text : str) (t f l e : str) :
  extract_details text = Ok (t, f, l, e) ->
  row_well_formed (mkRow 0 t f l e) /\
  forall id, row_well_formed (mkRow id t f l e).
Proof.
  rewrite extract_details_eq.
  destruct (parse_fullname _) as [[[t' f'] l']|] eqn:Hn; [|discriminate].
  destruct (parse_email _) as [e'|] eqn:He; [|discriminate].
  intros [= <- <- <- <-].
  apply parse_fullname_fields in Hn as (Ht & Hf & Hl).
  pose proof (split_ws_from_tokens (strip (hd [] (split_on nl text))) [] eq_refl)
    as Htok.
  fold (split_ws (strip (hd [] (split_on nl text)))) in Htok.
  rewrite Forall_forall in Htok.
  assert (forall id, row_well_formed (mkRow id t' f' l' e')) as H.
  { intros id. unfold row_well_formed. simpl.
    split; [exact Ht|]. split; [now apply Htok|]. split; [now apply Htok|].
    exact (parse_email_trimmed _ He). }
  split; [apply H | exact H].
Qed.

Lemma row_of_well_formed (doc : Doc) (d : Destination) (r : row) :
  row_of doc d r -> row_well_formed r.
Proof.
  intros (n & page & _ & _ & H). destruct r as [id t f l e]. simpl in H.
  exact (proj2 (extract_details_well_formed _ H) id).
Qed.

Lemma process_docs_well_formed (docs : list Doc) :
  forall st : state,
  Forall row_well_formed (csv_rows st) ->
  Forall row_well_formed (csv_rows (fst (process_docs docs st))).
Proof.
  induction docs as [|doc docs IH]; intros st Hst; [exact Hst|].
  destruct (outline_loop_rows doc (outlines doc) 0 st)
    as (rows & seen & rest & Hrows & _ & Hall & _).
  cbn [process_docs]. unfold bind, process_doc.
  assert (H1 : Forall row_well_formed
                 (csv_rows (fst (outline_loop doc 0 (outlines doc) st)))).
  { rewrite Hrows. apply Forall_app. split; [exact Hst|].
    clear Hrows. induction Hall as [|d r seen rows Hr _ IHall]; constructor;
      [exact (row_of_well_formed Hr) | exact IHall]. }
  destruct (outline_loop doc 0 (outlines doc) st) as [st1 [[]|e]]; simpl in H1;
    [now apply IH | exact H1].
Qed.

(** X10: every row of every run has an empty title or a title of [TITLES],
    a first name and a last name that are not empty and hold no white
    space, and an email without white space at either end. *)
Theorem rows_well_formed (docs : list Doc) :
  Forall row_well_formed (csv_rows (fst (run docs))).
Proof.
  apply process_docs_well_formed. constructor.
Qed.

(** The white space that [strip] removes is white space that [split]
    skips. *)
Lemma split_ws_from_trailing (s q : str) :
  forallb is_space q = true ->
  forall cur, split_ws_from cur (s ++ q) = split_ws_from cur s.
Proof.
  intros Hq. induction s as [|c s IH]; intros cur; simpl.
  - revert cur. induction q as [|c q IHq]; intros cur; simpl; [reflexivity|].
    simpl in Hq. apply andb_true_iff in Hq as [Hc Hq]. rewrite Hc.
    destruct cur as [|x cur]; rewrite (IHq Hq); reflexivity.
  - destruct (is_space c); [destruct cur|]; now rewrite IH.
Qed.

Lemma split_ws_lstrip (s : str) : split_ws (lstrip s) = split_ws s.
Proof.
  unfold split_ws. induction s as [|c s IH]; simpl; [reflexivity|].
  destruct (is_space c) eqn:Hc; [exact IH | simpl; now rewrite Hc].
Qed.

(** X11: the [strip()] of line 87 changes nothing: the tokens of the name
    line are the same with and without it. *)
Theorem strip_before_split (s : str) :
  split_ws (strip s) = split_ws s.
Proof.
  rewrite <- (split_ws_lstrip s). unfold strip.
  destruct (lstrip_suffix (rev (lstrip s))) as (p & Hp & Hsp).
  apply (f_equal (@rev char)) in Hp. rewrite rev_involutive, rev_app_distr in Hp.
  rewrite Hp at 2. unfold split_ws. symmetry.
  apply split_ws_from_trailing.
  rewrite forallb_forall in *. intros c Hc. apply Hsp. now apply in_rev.
Qed.

End Tokens.
(** ** The files of a run that finishes *)

Section Files.

Variable doc : Doc.

Lemma segment_indices_add (path : str) (seg : list Page) (st : state) :
  segment_indices (add_file path seg st)
  = segment_indices st ++ [map page_index seg].
Proof.
  unfold segment_indices, add_file. simpl. now rewrite map_app.
Qed.

Lemma page_inside_nat (d : Destination) :
  page_inside doc d ->
  dest_page d = Some (Z.of_nat (page_nat d)) /\ page_nat d < getNumPages doc.
Proof.
  intros (n & Hn & Hlt). unfold page_nat. rewrite Hn, Nat2Z.id. now split.
Qed.

Lemma clean_of_passable (ds : list Destination) :
  passable_list doc ds -> Forall (page_inside doc) ds -> clean_list doc ds.
Proof.
  intros (_ & Hd & Hlast) Hin. split; [exact Hin|]. now split.
Qed.

Lemma loop_body_ranges (i : nat) (d : Destination) (rest : list outline_item)
    (st st' : state) :
  skipn (i + 1) (outlines doc) = rest ->
  page_inside doc d ->
  Forall (page_inside doc) (top_level rest) ->
  loop_body doc i (Dest d) st = (st', Ok tt) ->
  segment_indices st'
  = segment_indices st
    ++ map (fun ab => seq (fst ab) (snd ab - fst ab))
           (match top_level rest with
            | nd :: _ =>
                if is_resume_ok (title d) then [(page_nat d, page_nat nd)] else []
            | [] => []
            end).
Proof.
  intros Hrest Hd Hin. rewrite loop_body_eq.
  destruct (read_page doc d) as [[n page]|] eqn:Hread; [|discriminate].
  apply read_page_ok in Hread as [Hn _].
  destruct (page_inside_nat Hd) as [Hdn _]. rewrite Hdn in Hn.
  injection Hn as <-.
  pose proof (candidate_branch_files d page st) as Hfiles.
  destruct (candidate_branch d page st) as [st1 [[]|e]]; simpl in Hfiles;
    [|discriminate].
  assert (Hseg : segment_indices st1 = segment_indices st)
    by (unfold segment_indices; now rewrite Hfiles).
  rewrite resume_branch_eq, <- Hseg.
  destruct (is_resume_ok (title d)).
  - destruct (next_page doc i) as [e|] eqn:Hnext; [|discriminate].
    destruct (@next_page_head doc i rest e Hrest Hnext) as (nd & tl & Htop & He).
    rewrite Htop in Hin |- *. apply Forall_inv in Hin.
    destruct (page_inside_nat Hin) as [Hndn _]. rewrite Hndn in He.
    injection He as <-.
    destruct (add_pages doc _) as [seg|] eqn:Hadd; [|discriminate].
    intros [= <-]. rewrite segment_indices_add.
    rewrite (@add_pages_indices doc _ _ seg (Nat2Z.is_nonneg _) Hadd).
    rewrite Nat2Z.id.
    now replace (Z.to_nat (Z.of_nat (page_nat nd) - Z.of_nat (page_nat d)))
      with (page_nat nd - page_nat d) by lia.
  - destruct (is_resume_error (title d)); intros [= <-];
      destruct (top_level rest); simpl; now rewrite app_nil_r.
Qed.

Lemma outline_loop_ranges (items : list outline_item) :
  forall (i : nat) (st st' : state),
  skipn i (outlines doc) = items ->
  Forall (page_inside doc) (top_level items) ->
  outline_loop doc i items st = (st', Ok tt) ->
  segment_indices st'
  = segment_indices st
    ++ map (fun ab => seq (fst ab) (snd ab - fst ab))
           (resume_ranges (top_level items)).
Proof.
  induction items as [|[d|x] items IH]; intros i st st' Hskip Hin.
  - simpl. unfold ret. intros [= <-]. now rewrite app_nil_r.
  - pose proof (skipn_tail _ _ Hskip) as Hrest.
    simpl top_level in Hin. apply Forall_cons_iff in Hin as [Hd Hin].
    cbn [outline_loop]. unfold bind.
    destruct (loop_body doc i (Dest d) st) as [st1 [[]|e]] eqn:Hb; [|discriminate].
    intros Hl. apply (IH (S i)) in Hl; [|now rewrite <- Nat.add_1_r|exact Hin].
    rewrite Hl, (@loop_body_ranges i d items st st1 Hrest Hd Hin Hb).
    simpl top_level. cbn [resume_ranges]. now rewrite map_app, app_assoc.
  - cbn [outline_loop]. unfold bind. simpl. apply IH; [|exact Hin].
    rewrite <- Nat.add_1_r. exact (skipn_tail _ _ Hskip).
Qed.

(** X12: the run over a document whose bookmarks point to pages of the
    document, and that gets through, writes, in the order of the outline,
    one file per resume bookmark, and the page numbers of each file are
    those from the page of its bookmark up to, and without, the page of the
    top-level bookmark after it. *)
Theorem files_follow_outline (st : state) :
  runs_clean doc ->
  snd (process_doc doc st) = Ok tt /\
  segment_indices (fst (process_doc doc st))
  = segment_indices st
    ++ map (fun ab => seq (fst ab) (snd ab - fst ab))
           (resume_ranges (top_level (outlines doc))).
Proof.
  intros Hclean.
  assert (Hok : snd (process_doc doc st) = Ok tt)
    by now apply runs_clean_finishes.
  split; [exact Hok|]. unfold process_doc in *.
  destruct (outline_loop doc 0 (outlines doc) st) as [st' [[]|e]] eqn:Hrun;
    [|discriminate].
  exact (@outline_loop_ranges (outlines doc) 0 st st' eq_refl (proj1 Hclean) Hrun).
Qed.

(** X13: a resume bookmark whose next top-level bookmark has the same page
    number, or a lower one, still gets a file, and the file has no page:
    the step counts the resume, and adds to the files one without pages
    under the name of the current candidate. *)
Theorem resume_without_pages (i k : nat) (d nd : Destination) (n e : Z)
    (page : Page) (st st1 : state) :
  is_resume_ok (title d) = true ->
  is_next_top_level doc i k nd ->
  dest_page d = Some n ->
  dest_page nd = Some e ->
  getPage doc n = Ok page ->
  candidate_branch d page st = (st1, Ok tt) ->
  (e <= n)%Z ->
  loop_body doc i (Dest d) st
  = (mkState (candidate_id st1) (resume_count st1 + 1) (resume_errors st1)
             (csv_rows st1)
             (resume_files st1
              ++ [(lit "output/resumes/" ++ str_of_nat (candidate_id st1)
                   ++ lit ".pdf", [])]),
     Ok tt).
Proof.
  intros Hok Hnext Hn He Hpage Hcand Hle.
  rewrite loop_body_eq, (proj2 (read_page_ok doc d n page) (conj Hn Hpage)), Hcand.
  rewrite resume_branch_eq, Hok.
  rewrite (@next_page_ok doc i nd e (@next_destination_finds doc i k nd Hnext) He).
  rewrite (@range_empty n e Hle). simpl. now rewrite resume_path_text.
Qed.

(** X14: a bookmark whose title matches the resume-error pattern is counted
    as an error and nothing else: no file is written, the forward scan is
    not made, and nothing is raised, wherever the bookmark stands. *)
Theorem resume_error_only_counted (i : nat) (d : Destination) (n : Z)
    (page : Page) (st st1 : state) :
  is_resume_error (title d) = true ->
  dest_page d = Some n ->
  getPage doc n = Ok page ->
  candidate_branch d page st = (st1, Ok tt) ->
  loop_body doc i (Dest d) st = (incr_resume_errors st1, Ok tt).
Proof.
  intros Herr Hn Hpage Hcand.
  rewrite loop_body_eq, (proj2 (read_page_ok doc d n page) (conj Hn Hpage)), Hcand.
  rewrite resume_branch_eq, Herr.
  destruct (is_resume_ok (title d)) eqn:Hok; [|reflexivity].
  rewrite (resume_ok_not_error _ Hok) in Herr. discriminate.
Qed.

End Files.

Lemma files_follow_outline_witness :
  segment_indices (fst (process_doc doc_overlap initial_state)) = [[1; 2]; [2; 3]].
Proof.
  apply (@files_follow_outline doc_overlap initial_state).
  apply clean_of_passable.
  - apply (proj1 (@outline_loop_finishes doc_overlap (outlines doc_overlap) 0
                    initial_state eq_refl)).
    reflexivity.
  - simpl.
    repeat (constructor; [eexists; split; [reflexivity | vm_compute; lia]|]).
    constructor.
Defined.

Lemma resume_without_pages_witness :
  loop_body doc_scenario 0 (Dest (dest_at (lit "early.pdf") 10)) initial_state
  = (mkState 0 1 0 [] [(lit "output/resumes/0.pdf", [])], Ok tt).
Proof.
  apply (@resume_without_pages doc_scenario 0 1 (dest_at (lit "early.pdf") 10)
           (dest_at (lit "resume.pdf") 10) 10%Z 10%Z (mkPage 10 details_text)
           initial_state initial_state).
  - reflexivity.
  - split; [lia|]. split; [reflexivity|]. intros j Hj. lia.
  - reflexivity.
  - reflexivity.
  - reflexivity.
  - reflexivity.
  - lia.
Defined.

Lemma resume_error_only_counted_witness :
  loop_body doc_resume_last 1 (Dest (dest_at (lit "cv.pdf (Error)") 1)) initial_state
  = (incr_resume_errors initial_state, Ok tt).
Proof.
  apply (@resume_error_only_counted doc_resume_last 1
           (dest_at (lit "cv.pdf (Error)") 1) 1%Z (mkPage 1 details_text));
    reflexivity.
Defined.

(** ** The resume patterns *)

Section ResumeTitles.

(** X15: a title is a resume title exactly when it is ".pdf" after any
    characters other than newlines, with nothing after it but, at most, one
    newline that ends the title. *)
Theorem resume_title_shape (t : str) :
  is_resume_ok t = true <->
  exists p, no_newline p = true /\
            (t = p ++ lit ".pdf" \/ t = p ++ lit ".pdf" ++ [nl]).
Proof.
  exact (is_resume_ok_iff t).
Qed.

Lemma resume_title_shape_witness :
  is_resume_ok (lit "My CV.pdf" ++ [nl]) = true.
Proof.
  apply (resume_title_shape (lit "My CV.pdf" ++ [nl])).
  exists (lit "My CV"). split; [reflexivity | now right].
Defined.

(** X16: a title is a resume-error title exactly when it is ".pdf (",
    then a closing parenthesis that ends the title, maybe before one last
    newline, with no newline before ".pdf" nor between the parentheses. *)
Theorem resume_error_title_shape (t : str) :
  is_resume_error t = true <->
  exists p q, no_newline p = true /\ no_newline q = true /\
    (t = p ++ lit ".pdf (" ++ q ++ lit ")" \/
     t = p ++ lit ".pdf (" ++ q ++ lit ")" ++ [nl]).
Proof.
  exact (is_resume_error_iff t).
Qed.

Lemma resume_error_title_shape_witness :
  is_resume_error (lit "My CV.pdf (Pending)") = true.
Proof.
  apply (resume_error_title_shape (lit "My CV.pdf (Pending)")).
  exists (lit "My CV"), (lit "Pending"). repeat split. now left.
Defined.

End ResumeTitles.

(** ** Owners and contents of the files *)

Section Owners.

Variable doc : Doc.

Lemma loop_body_owner (i : nat) (d : Destination) (rest : list outline_item)
    (st st' : state) :
  skipn (i + 1) (outlines doc) = rest ->
  loop_body doc i (Dest d) st = (st', Ok tt) ->
  candidate_id st'
  = candidate_id st + (if is_candidate_details (title d) then 1 else 0) /\
  map fst (resume_files st')
  = map fst (resume_files st)
    ++ map resume_path
         (match top_level rest with
          | _ :: _ => if is_resume_ok (title d) then [candidate_id st'] else []
          | [] => []
          end).
Proof.
  intros Hrest. rewrite loop_body_eq.
  destruct (read_page doc d) as [[n page]|]; [|discriminate].
  pose proof (candidate_branch_files d page st) as Hfiles.
  pose proof (candidate_branch_count d page st) as Hid.
  destruct (candidate_branch d page st) as [st1 [[]|e]]; simpl in Hfiles, Hid;
    [|discriminate].
  rewrite resume_branch_eq, <- Hfiles, <- Hid.
  destruct (is_resume_ok (title d)).
  - destruct (next_page doc i) as [e|] eqn:Hnext; [|discriminate].
    destruct (@next_page_head doc i rest e Hrest Hnext) as (nd & tl & -> & _).
    destruct (add_pages doc _) as [seg|]; [|discriminate].
    intros [= <-]. simpl. split; [reflexivity|]. now rewrite map_app.
  - destruct (is_resume_error (title d)); intros [= <-]; simpl;
      (split; [reflexivity|]); destruct (top_level rest); simpl;
      now rewrite app_nil_r.
Qed.

Lemma outline_loop_owners (items : list outline_item) :
  forall (i : nat) (st st' : state),
  skipn i (outlines doc) = items ->
  outline_loop doc i items st = (st', Ok tt) ->
  map fst (resume_files st')
  = map fst (resume_files st)
    ++ map resume_path (resume_owners (candidate_id st) (top_level items)).
Proof.
  induction items as [|[d|x] items IH]; intros i st st' Hskip.
  - simpl. unfold ret. intros [= <-]. now rewrite app_nil_r.
  - pose proof (skipn_tail _ _ Hskip) as Hrest.
    cbn [outline_loop]. unfold bind.
    destruct (loop_body doc i (Dest d) st) as [st1 [[]|e]] eqn:Hb; [|discriminate].
    intros Hl. apply (IH (S i)) in Hl; [|now rewrite <- Nat.add_1_r].
    destruct (@loop_body_owner i d items st st1 Hrest Hb) as [Hid Hfiles].
    rewrite Hl, Hfiles, Hid. simpl top_level. cbn [resume_owners].
    now rewrite map_app, app_assoc.
  - cbn [outline_loop]. unfold bind. simpl. apply IH.
    rewrite <- Nat.add_1_r. exact (skipn_tail _ _ Hskip).
Qed.

(** X17: in the run over a document that gets through, the file of each
    resume bookmark is named "output/resumes/<id>.pdf" with, for id, the
    number of candidate-details bookmarks met up to that bookmark, itself
    included, in this and the earlier documents: a resume goes to the last
    candidate before it, and the names of the files tell which ids these
    are. *)
Theorem file_names_follow_outline (st : state) :
  gets_through doc ->
  snd (process_doc doc st) = Ok tt /\
  map fst (resume_files (fst (process_doc doc st)))
  = map fst (resume_files st)
    ++ map (fun k => lit "output/resumes/" ++ str_of_nat k ++ lit ".pdf")
         (resume_owners (candidate_id st) (top_level (outlines doc))) /\
  (forall ids,
     map fst (resume_files (fst (process_doc doc st)))
     = map fst (resume_files st)
       ++ map (fun k => lit "output/resumes/" ++ str_of_nat k ++ lit ".pdf") ids ->
     ids = resume_owners (candidate_id st) (top_level (outlines doc))).
Proof.
  intros Hthrough.
  assert (Hok : snd (process_doc doc st) = Ok tt)
    by now apply (@outline_loop_finishes doc (outlines doc) 0 st eq_refl).
  split; [exact Hok|]. unfold process_doc in *.
  destruct (outline_loop doc 0 (outlines doc) st) as [st' [[]|e]] eqn:Hrun;
    [|discriminate].
  pose proof (@outline_loop_owners (outlines doc) 0 st st' eq_refl Hrun) as Hnames.
  assert (Hext : forall ids,
             map (fun k => lit "output/resumes/" ++ str_of_nat k ++ lit ".pdf") ids
             = map resume_path ids).
  { intros ids. apply map_ext. intros k. now rewrite resume_path_text. }
  simpl. split.
  - now rewrite Hext.
  - intros ids Hids. rewrite Hext, Hnames in Hids.
    apply app_inv_head in Hids. symmetry. now apply resume_paths_inj.
Qed.

Lemma top_level_skipn (l : list outline_item) :
  forall (i : nat) (r : list outline_item) (x : Destination),
  skipn i l = r -> In x (top_level r) -> In x (top_level l).
Proof.
  induction l as [|[d|n] l IH]; intros i r x Hskip Hin.
  - rewrite skipn_nil in Hskip. now subst r.
  - destruct i as [|i]; simpl in Hskip; [now subst r|].
    simpl. right. exact (IH i r x Hskip Hin).
  - destruct i as [|i]; simpl in Hskip; [now subst r|].
    simpl. exact (IH i r x Hskip Hin).
Qed.

Lemma loop_body_pages (i : nat) (it : outline_item) (rest : list outline_item)
    (st : state) :
  skipn i (outlines doc) = it :: rest ->
  Forall (fun f => pages_of_range doc (snd f)) (resume_files st) ->
  Forall (fun f => pages_of_range doc (snd f))
         (resume_files (fst (loop_body doc i it st))).
Proof.
  intros Hskip Hst. destruct it as [d|l]; [|exact Hst].
  destruct (loop_body_file doc i d st)
    as [Hsame | (n & e & seg & Hok & Hn & Hnext & Hadd & _ & Hfiles)].
  - now rewrite Hsame.
  - rewrite Hfiles. apply Forall_app. split; [exact Hst|].
    constructor; [|constructor]. simpl.
    destruct (@next_page_head doc i rest e (skipn_tail _ _ Hskip) Hnext)
      as (nd & tl & Htop & He).
    exists d, nd, n, e. split; [|split; [|split; [|split; [|split; [|split; [|split]]]]]].
    + apply (@top_level_skipn (outlines doc) i (Dest d :: rest) d Hskip).
      now left.
    + apply (@top_level_skipn (outlines doc) i (Dest d :: rest) nd Hskip).
      simpl. right. rewrite Htop. now left.
    + exact Hok.
    + exact Hn.
    + exact He.
    + exact (@add_pages_inv doc _ _ Hadd).
    + exact (@add_pages_text doc _ _ Hadd).
    + intros Ha. exact (@add_pages_indices doc n e seg Ha Hadd).
Qed.

Lemma outline_loop_pages (items : list outline_item) :
  forall (i : nat) (st : state),
  skipn i (outlines doc) = items ->
  Forall (fun f => pages_of_range doc (snd f)) (resume_files st) ->
  Forall (fun f => pages_of_range doc (snd f))
         (resume_files (fst (outline_loop doc i items st))).
Proof.
  induction items as [|it items IH]; intros i st Hskip Hst; [exact Hst|].
  pose proof (@loop_body_pages i it items st Hskip Hst) as Hb.
  cbn [outline_loop]. unfold bind.
  destruct (loop_body doc i it st) as [st1 [[]|e]]; simpl in Hb; [|exact Hb].
  apply IH; [|exact Hb]. rewrite <- Nat.add_1_r. exact (skipn_tail _ _ Hskip).
Qed.

(** X18: whatever the outline, and whether the run finishes or not, every
    file written for a document holds the pages that the document gives at
    the numbers from the page number of a resume bookmark up to, and
    without, the page number of another top-level bookmark, each with the
    text it has in the document; when the first number is not negative
    these are consecutive pages in the order of the document. *)
Theorem files_hold_consecutive_pages (st : state) :
  resume_files st = [] ->
  Forall (fun f => pages_of_range doc (snd f))
         (resume_files (fst (process_doc doc st))).
Proof.
  intros Hnil. apply outline_loop_pages; [reflexivity|]. rewrite Hnil. constructor.
Qed.

End Owners.

Lemma file_names_follow_outline_witness :
  map fst (resume_files (fst (process_doc doc_two_resumes initial_state)))
  = [lit "output/resumes/1.pdf"; lit "output/resumes/1.pdf"].
Proof.
  apply (@file_names_follow_outline doc_two_resumes initial_state).
  apply (proj1 (@outline_loop_finishes doc_two_resumes (outlines doc_two_resumes) 0
                  initial_state eq_refl)).
  reflexivity.
Defined.

Lemma files_hold_consecutive_pages_witness :
  Forall (fun f => pages_of_range doc_unresolved (snd f))
         (resume_files (fst (process_doc doc_unresolved initial_state))).
Proof.
  apply (@files_hold_consecutive_pages doc_unresolved initial_state). reflexivity.
Defined.

(** ** Pages that can be read as a candidate *)

Section Readable.

Lemma list_index_ok_inv (x : str) (l : list str) (n : nat) :
  list_index x l = Ok n ->
  exists pre post, l = pre ++ x :: post /\ ~ In x pre /\ List.length pre = n.
Proof.
  revert n. induction l as [|y l IH]; simpl; intros n H; [discriminate|].
  destruct (str_eqb y x) eqn:E.
  - apply str_eqb_eq in E. subst y. injection H as <-.
    exists [], l. repeat split. intros [].
  - destruct (list_index x l) as [m|]; [|discriminate]. injection H as <-.
    destruct (IH m eq_refl) as (pre & post & -> & Hpre & Hlen).
    exists (y :: pre), post. simpl. repeat split; [|now rewrite Hlen].
    intros [Hy | Hin]; [|contradiction].
    subst y. rewrite (proj2 (str_eqb_eq x x) eq_refl) in E. discriminate.
Qed.

Lemma parse_fullname_ok_iff (toks : list str) :
  (exists r, parse_fullname toks = Ok r) <->
  exists t rest, toks = t :: rest /\ (In t TITLES -> rest <> []).
Proof.
  unfold parse_fullname, py_index. destruct toks as [|t rest]; simpl.
  - split; [intros [r H]; discriminate | intros (t & rest & H & _); discriminate].
  - assert (Hlast : exists x, py_last (t :: rest) = Ok x).
    { exists (last (t :: rest) []). now apply py_last_last. }
    destruct Hlast as [x Hx]. split.
    + intros [r H]. exists t, rest. split; [reflexivity|].
      intros Hin ->. apply in_titles_In in Hin. rewrite Hin in H. discriminate.
    + intros (t' & rest' & E & Hne). injection E as <- <-.
      destruct (in_titles t) eqn:Ht.
      * apply in_titles_In in Ht. destruct rest as [|t2 rest]; [now destruct Hne|].
        simpl. rewrite Hx. simpl. eauto.
      * simpl. rewrite Hx. simpl. eauto.
Qed.

Lemma parse_email_ok_iff (details : list str) :
  (exists e, parse_email details = Ok e) <->
  exists pre e post,
    details = pre ++ lit "Email Address:" :: e :: post /\
    ~ In (lit "Email Address:") pre.
Proof.
  unfold parse_email. split.
  - intros [e H].
    destruct (list_index _ details) as [idx|] eqn:Hidx; [|discriminate].
    apply list_index_ok_inv in Hidx as (pre & post & -> & Hpre & <-).
    cbn [obind] in H. unfold py_index in H.
    rewrite nth_error_app2 in H by lia.
    replace (List.length pre + 1 - List.length pre) with 1 in H by lia.
    destruct post as [|e' post]; [discriminate|].
    now exists pre, e', post.
  - intros (pre & e & post & -> & Hpre).
    rewrite (@list_index_first _ pre (e :: post) Hpre). cbn [obind].
    unfold py_index. rewrite nth_error_app2 by lia.
    replace (List.length pre + 1 - List.length pre) with 1 by lia.
    simpl. eauto.
Qed.

(** X19: a page can be read as a candidate exactly when its first line has
    a token, and a second one if the first is a title, and some line is
    exactly "Email Address:" with a line after the first such line. *)
Theorem details_readable_iff (text : str) :
  (exists r, extract_details text = Ok r) <->
  (exists t rest,
     split_ws (strip (hd [] (split_on nl text))) = t :: rest /\
     (In t TITLES -> rest <> [])) /\
  (exists pre e post,
     split_on nl text = pre ++ lit "Email Address:" :: e :: post /\
     ~ In (lit "Email Address:") pre).
Proof.
  rewrite <- parse_fullname_ok_iff, <- parse_email_ok_iff, extract_details_eq.
  destruct (parse_fullname _) as [name|].
  - destruct (parse_email _) as [c_email|].
    + split; eauto.
    + split; [intros [r H]; discriminate | intros [_ [x H]]; discriminate].
  - split; [intros [r H]; discriminate | intros [[r H] _]; discriminate].
Qed.

Lemma details_readable_iff_witness :
  exists r, extract_details details_text = Ok r.
Proof.
  apply (details_readable_iff details_text). split.
  - exists (lit "Mr"), [lit "John"; lit "Q"; lit "Public"].
    split; [reflexivity | discriminate].
  - exists [lit "Mr John Q Public"], (lit " john@example.org "), [].
    split; [reflexivity|]. intros [H|H]; [discriminate | exact H].
Defined.

End Readable.

(** ** What is left in the output folder *)

Section Folder.

Lemma last_written_app (files : list (str * list Page)) (p path : str)
    (content : list Page) :
  last_written (files ++ [(p, content)]) path
  = if str_eqb p path then Some content else last_written files path.
Proof.
  induction files as [|[q c] files IH]; simpl.
  - now destruct (str_eqb p path).
  - rewrite IH. now destruct (str_eqb p path).
Qed.

Lemma str_eqb_neq (a b : str) : a <> b -> str_eqb a b = false.
Proof.
  intros Hne. destruct (str_eqb a b) eqn:E; [|reflexivity].
  apply str_eqb_eq in E. contradiction.
Qed.

Lemma loop_body_folder (doc : Doc) (i : nat) (it : outline_item) (st : state)
    (path : str) :
  (forall c, candidate_id st <= c -> path <> resume_path c) ->
  output_folder (fst (loop_body doc i it st)) path = output_folder st path.
Proof.
  intros Hpath. unfold output_folder.
  pose proof (loop_body_counter_up doc i it st) as Hup.
  destruct (loop_body_files_item doc i it st) as [Hsame | [_ [seg Hfiles]]].
  - now rewrite Hsame.
  - rewrite Hfiles, last_written_app, str_eqb_neq; [reflexivity|].
    intros E. exact (Hpath _ Hup (eq_sym E)).
Qed.

Lemma outline_loop_folder (doc : Doc) (items : list outline_item) (path : str) :
  forall (i : nat) (st : state),
  (forall c, candidate_id st <= c -> path <> resume_path c) ->
  output_folder (fst (outline_loop doc i items st)) path = output_folder st path.
Proof.
  induction items as [|it items IH]; intros i st Hpath; [reflexivity|].
  pose proof (@loop_body_folder doc i it st path Hpath) as Hb.
  pose proof (loop_body_counter_up doc i it st) as Hup.
  cbn [outline_loop]. unfold bind.
  destruct (loop_body doc i it st) as [st1 [[]|e]]; simpl in Hb, Hup;
    [|exact Hb].
  rewrite IH; [exact Hb|]. intros c Hc. apply Hpath. lia.
Qed.

Lemma process_docs_folder (docs : list Doc) (path : str) :
  forall st : state,
  (forall c, candidate_id st <= c -> path <> resume_path c) ->
  output_folder (fst (process_docs docs st)) path = output_folder st path.
Proof.
  induction docs as [|doc docs IH]; intros st Hpath; [reflexivity|].
  pose proof (@outline_loop_folder doc (outlines doc) path 0 st Hpath) as Hd.
  destruct (outline_loop_extends doc (outlines doc) 0 st) as (_ & _ & Hup & _).
  cbn [process_docs]. unfold bind, process_doc in *.
  destruct (outline_loop doc 0 (outlines doc) st) as [st1 [[]|e]];
    simpl in Hd, Hup; [|exact Hd].
  rewrite IH; [exact Hd|]. intros c Hc. apply Hpath. lia.
Qed.

(** X3: the files of the candidates before the current one are final: what
    the output folder holds under "output/resumes/<k>.pdf", the name of an
    id [k] below the counter, is the same after any further documents,
    since a file is written under the counter of the moment, the counter
    never goes down and different ids give different names. The same holds
    of any name that is not the name of an id from the counter on. *)
Theorem earlier_files_final (docs : list Doc) (st : state) (k : nat) :
  k < candidate_id st ->
  resume_path k = lit "output/resumes/" ++ str_of_nat k ++ lit ".pdf" /\
  output_folder (fst (process_docs docs st)) (resume_path k)
  = output_folder st (resume_path k) /\
  (forall path,
     (forall c, candidate_id st <= c -> path <> resume_path c) ->
     output_folder (fst (process_docs docs st)) path = output_folder st path).
Proof.
  intros Hk. split; [apply resume_path_text|].
  split; [|intros path Hpath; now apply process_docs_folder].
  apply process_docs_folder. intros c Hc E.
  apply resume_path_inj in E. lia.
Qed.

(** X20: a resume written for a candidate who has one already takes its
    place: after the step of a resume bookmark, the output folder holds,
    under the name of the current candidate, the pages of this resume,
    whatever it held before. *)
Theorem later_resume_replaces (doc : Doc) (i : nat) (d : Destination) (n e : Z)
    (page : Page) (seg : list Page) (st st1 : state) :
  is_resume_ok (title d) = true ->
  dest_page d = Some n ->
  getPage doc n = Ok page ->
  candidate_branch d page st = (st1, Ok tt) ->
  next_page doc i = Ok e ->
  add_pages doc (range n e) = Ok seg ->
  output_folder (fst (loop_body doc i (Dest d) st))
                (lit "output/resumes/" ++ str_of_nat (candidate_id st1) ++ lit ".pdf")
  = Some seg /\
  resume_files (fst (loop_body doc i (Dest d) st))
  = resume_files st
    ++ [(lit "output/resumes/" ++ str_of_nat (candidate_id st1) ++ lit ".pdf", seg)].
Proof.
  intros Hok Hn Hpage Hcand Hnext Hadd.
  pose proof (candidate_branch_files d page st) as Hfiles.
  rewrite Hcand in Hfiles. simpl in Hfiles.
  rewrite loop_body_eq, (proj2 (read_page_ok doc d n page) (conj Hn Hpage)), Hcand.
  rewrite resume_branch_eq, Hok, Hnext, Hadd, <- resume_path_text.
  unfold output_folder, add_file, incr_resume_count.
  cbn [fst resume_files candidate_id]. rewrite Hfiles, last_written_app.
  now rewrite (proj2 (str_eqb_eq _ _) eq_refl).
Qed.

End Folder.

Lemma earlier_files_final_witness :
  output_folder (fst (process_docs [doc_two_resumes] (fst (run [doc_overlap]))))
                (resume_path 1)
  = output_folder (fst (run [doc_overlap])) (resume_path 1).
Proof.
  refine (proj1 (proj2 (@earlier_files_final [doc_two_resumes]
                          (fst (run [doc_overlap])) 1 _))).
  vm_compute. lia.
Defined.

Lemma later_resume_replaces_witness :
  output_folder
    (fst (loop_body doc_two_resumes 2 (Dest (dest_at (lit "b.pdf") 3))
            (mkState 1 1 0 [] [(lit "output/resumes/1.pdf",
                                [mkPage 1 details_text; mkPage 2 details_text])])))
    (lit "output/resumes/" ++ str_of_nat 1 ++ lit ".pdf")
  = Some [mkPage 3 details_text; mkPage 4 details_text].
Proof.
  apply (@later_resume_replaces doc_two_resumes 2 (dest_at (lit "b.pdf") 3)
           3%Z 5%Z (mkPage 3 details_text)
           [mkPage 3 details_text; mkPage 4 details_text]
           (mkState 1 1 0 [] [(lit "output/resumes/1.pdf",
                               [mkPage 1 details_text; mkPage 2 details_text])])
           (mkState 1 1 0 [] [(lit "output/resumes/1.pdf",
                               [mkPage 1 details_text; mkPage 2 details_text])]));
    reflexivity.
Defined.
